(** * ERP Attendance Intelligence: the calculation engine

    A shallow embedding of [src/calculations.js] (the [AttendanceCalculator]
    object) together with the properties its specification states.

    Numbers.  The extraction layer ([src/content.js], [getCellNumber]) reads
    every count with [parseInt], so [conducted], [attended] and [tcbr] are
    integers: they are [Z] here.  The threshold and every percentage are
    JavaScript numbers, that is binary64 values.  The calculator is given
    twice.  The first transcription computes with exact rationals [Q]: it
    carries the loops, the records and the control flow of the whole
    engine, and its quotients and products are not rounded.  The second,
    the module [F64], computes the numeric core on binary64 itself.  The
    properties stated of the first are those that rounding preserves:
    ranges, weak orders, the order of the guards, and relations between
    results of the code; where a property needs the inputs the
    application produces (counts up to 300, integer thresholds up to
    100), they are hypotheses, and what the code does with exact counts
    is stated on the counts, in integer arithmetic.  Where rounding
    decides a result, the result is evaluated in [F64].  The two
    non-finite values the code can produce are kept in the first
    transcription too: [Infinity] (the "impossible" result of
    [classesNeededToReachThreshold], and the start value of the running
    minimum) is a constructor of [jsnum], and [NaN] (the sum of a number
    and a missing [percentage] field) is [None] in an [option Q].  Every
    division of the source is guarded by a test on its divisor, so no
    division by zero has to be modelled.

    Objects.  A JavaScript object used as a map is an association list in
    [Object.keys] order (insertion order for the string labels used here);
    the order matters for "first encountered" results.  Arrays are lists;
    where the source mutates an array in place ([Array.prototype.sort] in
    [sortSubjects]) the arrays live in a heap indexed by locations. *)

From Stdlib Require Import ZArith QArith Qround Lqa Lia List String Bool Sorted.
From Stdlib Require Import Ascii Decimal DecimalString DecimalNat.
From Stdlib Require PrimFloat FloatOps SpecFloat Uint63.
From stdpp Require Import gmap.
Import ListNotations.

Local Open Scope Z_scope.
Local Open Scope Q_scope.

(** ** JavaScript numbers beyond the rationals *)

(** [a < b] on numbers, as a boolean. *)
Definition Qltb (a b : Q) : bool := negb (Qle_bool b a).

(** [Math.max] on two finite numbers. *)
Definition Math_max (a b : Q) : Q := if Qltb a b then b else a.

(** An integer-valued result that may be [Infinity]. *)
Inductive jsnum : Type :=
| Finite (z : Z)
| Infinity.

(** [x > 0], [x + y], [x < y] and [Math.min(x, n)] where [Infinity] may occur. *)
Definition jsnum_pos (x : jsnum) : bool :=
  match x with Finite z => (0 <? z)%Z | Infinity => true end.

Definition jsnum_add (x y : jsnum) : jsnum :=
  match x, y with
  | Finite a, Finite b => Finite (a + b)
  | _, _ => Infinity
  end.

Definition jsnum_lt (x y : jsnum) : bool :=
  match x, y with
  | Finite a, Finite b => (a <? b)%Z
  | Finite _, Infinity => true
  | Infinity, _ => false
  end.

Definition jsnum_min_cap (x : jsnum) (cap : Z) : Z :=
  match x with Finite z => Z.min z cap | Infinity => cap end.

(** ** Input records *)

(** One LTPS component of a subject: [{conducted, attended, tcbr}].  The
    field [tcbr] is always a number here, so the source's [comp.tcbr || 0]
    and [tcbr || 0] are the value itself ([0 || 0] is [0]). *)
Record Component : Type := mkComponent {
  conducted : Z;
  attended : Z;
  tcbr : Z
}.

(** The [components] object of a subject, keyed by the LTPS label. *)
Definition Components : Type := list (string * Component).

(** [attendanceMode]: ["ERP"] or ["TCBR_CORRECTED"]. *)
Inductive AttendanceMode : Type := ERP | TCBR_CORRECTED.

(** [setMode(mode)]: the new value of the [attendanceMode] field. *)
Definition setMode (mode : string) : AttendanceMode :=
  if String.eqb mode "ERP" then ERP
  else if String.eqb mode "TCBR_CORRECTED" then TCBR_CORRECTED
  else ERP.

Definition getModeDisplayText (m : AttendanceMode) : string :=
  match m with TCBR_CORRECTED => "TCBR-Corrected" | ERP => "ERP Standard" end.

Inductive Status : Type := safe | borderline | critical.

(** ** Result records *)

(** The object returned by [simulateMissNextClass]. *)
Record NextClassSimulation : Type := mkNextClassSimulation {
  currentPercentage : Q;
  newPercentage : Q;
  percentageDrop : Q;
  wouldFallBelowThreshold : bool;
  isAlreadyBelowThreshold : bool
}.

(** One entry of [componentData]. *)
Record ComponentData : Type := mkComponentData {
  cd_percentage : Q;
  cd_classesNeeded : jsnum;
  cd_canSkip : Z;
  cd_status : Status;
  cd_nextClassSimulation : NextClassSimulation;
  cd_conducted : Z;
  cd_attended : Z;
  cd_effectiveAttended : Z;
  cd_tcbr : Z
}.

(** The full object returned by [calculateSubjectSimulation] for a subject
    that has at least one component. *)
Record SubjectResult : Type := mkSubjectResult {
  sr_percentage : Q;
  sr_status : Status;
  sr_dangerScore : Q;
  sr_componentData : list (string * ComponentData);
  sr_weakestComponent : option string;
  sr_weakestPercentage : Q;
  sr_totalClassesNeeded : Z;
  sr_canSkip : Z
}.

(** [calculateSubjectSimulation] returns one of two object shapes: the
    three-field object [{status, classesNeeded, canSkip}] of the guard for
    an empty [components] object, or the full result. *)
Inductive SubjectSimulation : Type :=
| SimEmpty (status : Status) (classesNeeded canSkip : Z)
| SimFull (r : SubjectResult).

(** Field reads on either shape; a field the object lacks reads as
    [undefined], which is [None]. *)
Definition sim_percentage (s : SubjectSimulation) : option Q :=
  match s with SimEmpty _ _ _ => None | SimFull r => Some (sr_percentage r) end.

Definition sim_dangerScore (s : SubjectSimulation) : option Q :=
  match s with SimEmpty _ _ _ => None | SimFull r => Some (sr_dangerScore r) end.

Definition sim_status (s : SubjectSimulation) : Status :=
  match s with SimEmpty st _ _ => st | SimFull r => sr_status r end.

Definition sim_canSkip (s : SubjectSimulation) : Z :=
  match s with SimEmpty _ _ k => k | SimFull r => sr_canSkip r end.

(** ** The calculator

    [this.attendanceMode] is read by [getEffectiveAttended] only; it is the
    section variable below, so after the section every function takes the
    mode as its first argument. *)

Section Calculator.

Variable attendanceMode : AttendanceMode.

Definition getEffectiveAttended (attended tcbr : Z) : Z :=
  match attendanceMode with
  | TCBR_CORRECTED => (attended + tcbr)%Z
  | ERP => attended
  end.

Definition calculateComponentPercentage (attended conducted tcbr : Z) : Q :=
  if (conducted <=? 0)%Z then 100
  else
    let effectiveAttended := getEffectiveAttended attended tcbr in
    let percentage := (inject_Z effectiveAttended / inject_Z conducted) * 100 in
    if Qltb percentage 0 then 0
    else if Qltb 100 percentage then 100
    else percentage.

(** The loop body of [calculateSubjectPercentage] on the pair
    [(totalPercentage, validComponents)]. *)
Definition subjectPercentage_step (acc : Q * Z) (entry : string * Component) : Q * Z :=
  let comp := snd entry in
  if (0 <? conducted comp)%Z then
    let percentage :=
      calculateComponentPercentage (attended comp) (conducted comp) (tcbr comp) in
    (fst acc + percentage, (snd acc + 1)%Z)
  else acc.

Definition calculateSubjectPercentage (components : Components) : Q :=
  if (length components =? 0)%nat then 0
  else
    let '(totalPercentage, validComponents) :=
      fold_left subjectPercentage_step components (0, 0%Z) in
    if (validComponents =? 0)%Z then 100
    else totalPercentage / inject_Z validComponents.

Definition getStatus (percentage threshold : Q) : Status :=
  if Qle_bool (threshold + 5) percentage then safe
  else if Qle_bool threshold percentage then borderline
  else critical.

Definition calculateDangerScore (percentage threshold : Q) : Q :=
  if Qle_bool threshold percentage then
    Math_max 0 (threshold + 10 - percentage)
  else
    50 + (threshold - percentage).

Definition classesNeededToReachThreshold
    (attended conducted : Z) (threshold : Q) (tcbr : Z) : jsnum :=
  let effectiveAttended := getEffectiveAttended attended tcbr in
  let currentPercentage := calculateComponentPercentage attended conducted tcbr in
  if Qle_bool threshold currentPercentage then Finite 0
  else if Qle_bool 100 threshold then
    if (effectiveAttended <? conducted)%Z then Infinity else Finite 0
  else
    let thresholdDecimal := threshold / 100 in
    let numerator := thresholdDecimal * inject_Z conducted - inject_Z effectiveAttended in
    let denominator := 1 - thresholdDecimal in
    if Qle_bool denominator 0 then Infinity
    else
      let classesNeeded := Qceiling (numerator / denominator) in
      Finite (Z.max 0 classesNeeded).

Definition classesCanSkip
    (attended conducted : Z) (threshold : Q) (tcbr : Z) : Z :=
  let effectiveAttended := getEffectiveAttended attended tcbr in
  let currentPercentage := calculateComponentPercentage attended conducted tcbr in
  if Qltb currentPercentage threshold then 0%Z
  else if Qle_bool threshold 0 then 100%Z
  else
    let thresholdDecimal := threshold / 100 in
    let numerator := inject_Z effectiveAttended - thresholdDecimal * inject_Z conducted in
    let denominator := thresholdDecimal in
    if Qle_bool denominator 0 then 100%Z
    else
      let canSkip := Qfloor (numerator / denominator) in
      if (100 <? canSkip)%Z then 100%Z
      else Z.max 0 canSkip.

Definition simulateMissNextClass
    (attended conducted : Z) (threshold : Q) (tcbr : Z) : NextClassSimulation :=
  let currentPercentage := calculateComponentPercentage attended conducted tcbr in
  let newConducted := (conducted + 1)%Z in
  let newPercentage := calculateComponentPercentage attended newConducted tcbr in
  {| currentPercentage := currentPercentage;
     newPercentage := newPercentage;
     percentageDrop := currentPercentage - newPercentage;
     wouldFallBelowThreshold :=
       Qle_bool threshold currentPercentage && Qltb newPercentage threshold;
     isAlreadyBelowThreshold := Qltb currentPercentage threshold |}.

(** The entry of [componentData] built for one component. *)
Definition componentDataOf (threshold : Q) (comp : Component) : ComponentData :=
  let tcbr := tcbr comp in
  let compPercentage :=
    calculateComponentPercentage (attended comp) (conducted comp) tcbr in
  {| cd_percentage := compPercentage;
     cd_classesNeeded :=
       classesNeededToReachThreshold (attended comp) (conducted comp) threshold tcbr;
     cd_canSkip := classesCanSkip (attended comp) (conducted comp) threshold tcbr;
     cd_status := getStatus compPercentage threshold;
     cd_nextClassSimulation :=
       simulateMissNextClass (attended comp) (conducted comp) threshold tcbr;
     cd_conducted := conducted comp;
     cd_attended := attended comp;
     cd_effectiveAttended := getEffectiveAttended (attended comp) tcbr;
     cd_tcbr := tcbr |}.

(** The mutable locals of the loop of [calculateSubjectSimulation]. *)
Record SimLoop : Type := mkSimLoop {
  componentData : list (string * ComponentData);
  weakestComponent : option string;
  weakestPercentage : Q;
  totalClassesNeeded : jsnum;
  minCanSkip : jsnum
}.

Definition simLoop_init : SimLoop :=
  {| componentData := [];
     weakestComponent := None;
     weakestPercentage := 100;
     totalClassesNeeded := Finite 0;
     minCanSkip := Infinity |}.

Definition simLoop_step (threshold : Q) (st : SimLoop) (entry : string * Component)
    : SimLoop :=
  let type := fst entry in
  let data := componentDataOf threshold (snd entry) in
  let compPercentage := cd_percentage data in
  let compNeeded := cd_classesNeeded data in
  let compCanSkip := cd_canSkip data in
  let weakest := Qltb compPercentage (weakestPercentage st) in
  {| componentData := componentData st ++ [(type, data)];
     weakestComponent := if weakest then Some type else weakestComponent st;
     weakestPercentage := if weakest then compPercentage else weakestPercentage st;
     totalClassesNeeded :=
       if jsnum_pos compNeeded then jsnum_add (totalClassesNeeded st) compNeeded
       else totalClassesNeeded st;
     minCanSkip :=
       if jsnum_lt (Finite compCanSkip) (minCanSkip st) then Finite compCanSkip
       else minCanSkip st |}.

Definition calculateSubjectSimulation (components : Components) (threshold : Q)
    : SubjectSimulation :=
  if (length components =? 0)%nat then SimEmpty safe 0 0
  else
    let currentPercentage := calculateSubjectPercentage components in
    let status := getStatus currentPercentage threshold in
    let st := fold_left (simLoop_step threshold) components simLoop_init in
    SimFull
      {| sr_percentage := currentPercentage;
         sr_status := status;
         sr_dangerScore := calculateDangerScore currentPercentage threshold;
         sr_componentData := componentData st;
         sr_weakestComponent := weakestComponent st;
         sr_weakestPercentage := weakestPercentage st;
         sr_totalClassesNeeded := jsnum_min_cap (totalClassesNeeded st) 300;
         sr_canSkip :=
           match minCanSkip st with
           | Infinity => 0%Z
           | Finite m => Z.min m 100
           end |}.

End Calculator.

(** ** Batch processing *)

(** A subject as the extraction layer supplies it. *)
Record SubjectRecord : Type := mkSubjectRecord {
  courseCode : string;
  courseName : string;
  components : Components
}.

(** [rawData]: an object whose [subjects] field may be missing. *)
Record RawData : Type := mkRawData {
  subjects : option (list (string * SubjectRecord))
}.

(** An element of the array built by [processAllSubjects].  The spread
    [...simulation] copies the fields of the simulation object, whichever
    shape it has, so they are kept together in [ps_simulation]. *)
Record ProcessedSubject : Type := mkProcessedSubject {
  ps_courseCode : string;
  ps_courseName : string;
  ps_components : Components;
  ps_totalConducted : Z;
  ps_totalAttended : Z;
  ps_totalEffectiveAttended : Z;
  ps_totalAbsent : Z;
  ps_simulation : SubjectSimulation
}.

Definition ps_percentage (s : ProcessedSubject) : option Q :=
  sim_percentage (ps_simulation s).
Definition ps_dangerScore (s : ProcessedSubject) : option Q :=
  sim_dangerScore (ps_simulation s).
Definition ps_status (s : ProcessedSubject) : Status :=
  sim_status (ps_simulation s).

(** The inner loop of [processAllSubjects] on
    [(totalConducted, totalAttended, totalEffectiveAttended)]. *)
Definition totals_step (m : AttendanceMode) (acc : Z * Z * Z)
    (entry : string * Component) : Z * Z * Z :=
  let comp := snd entry in
  let '(totalConducted, totalAttended, totalEffectiveAttended) := acc in
  ((totalConducted + conducted comp)%Z,
   (totalAttended + attended comp)%Z,
   (totalEffectiveAttended + getEffectiveAttended m (attended comp) (tcbr comp))%Z).

Definition processSubject (m : AttendanceMode) (threshold : Q)
    (subject : SubjectRecord) : ProcessedSubject :=
  let simulation := calculateSubjectSimulation m (components subject) threshold in
  let '(totalConducted, totalAttended, totalEffectiveAttended) :=
    fold_left (totals_step m) (components subject) (0, 0, 0)%Z in
  {| ps_courseCode := courseCode subject;
     ps_courseName := courseName subject;
     ps_components := components subject;
     ps_totalConducted := totalConducted;
     ps_totalAttended := totalAttended;
     ps_totalEffectiveAttended := totalEffectiveAttended;
     ps_totalAbsent := (totalConducted - totalAttended)%Z;
     ps_simulation := simulation |}.

Definition processAllSubjects (m : AttendanceMode) (rawData : option RawData)
    (threshold : Q) : list ProcessedSubject :=
  match rawData with
  | None => []
  | Some raw =>
      match subjects raw with
      | None => []
      | Some subs => map (fun entry => processSubject m threshold (snd entry)) subs
      end
  end.

(** ** Sorting

    [Array.prototype.sort] sorts its receiver in place and is stable; a
    comparator result of [NaN] counts as [+0] (ECMAScript [SortCompare]).
    It is modelled by a stable insertion sort.  [localeCompare] depends on
    the host's locale and is a parameter. *)

(** [x - y] and [x + y] where an operand may be [undefined] or [NaN]. *)
Definition js_sub (x y : option Q) : option Q :=
  match x, y with Some a, Some b => Some (a - b) | _, _ => None end.

Definition js_add (x y : option Q) : option Q :=
  match x, y with Some a, Some b => Some (a + b) | _, _ => None end.

Definition SortCompare {A : Type} (comparefn : A -> A -> option Q) (x y : A) : Q :=
  match comparefn x y with Some v => v | None => 0 end.

Fixpoint sort_insert {A : Type} (comparefn : A -> A -> option Q) (x : A) (l : list A)
    : list A :=
  match l with
  | [] => [x]
  | y :: l' =>
      if Qle_bool (SortCompare comparefn x y) 0 then x :: y :: l'
      else y :: sort_insert comparefn x l'
  end.

Fixpoint array_sort {A : Type} (comparefn : A -> A -> option Q) (l : list A) : list A :=
  match l with
  | [] => []
  | x :: l' => sort_insert comparefn x (array_sort comparefn l')
  end.

(** Array references and the heap that holds the arrays of processed
    subjects. *)
Abbreviation loc := positive.
Abbreviation Heap := (gmap positive (list ProcessedSubject)).

Section Sorting.

Variable localeCompare : string -> string -> Z.

Definition byDanger (a b : ProcessedSubject) : option Q :=
  js_sub (ps_dangerScore b) (ps_dangerScore a).
Definition byName (a b : ProcessedSubject) : option Q :=
  Some (inject_Z (localeCompare (ps_courseName a) (ps_courseName b))).
Definition byPercentage (a b : ProcessedSubject) : option Q :=
  js_sub (ps_percentage a) (ps_percentage b).

(** The comparator chosen by the [switch] on [sortBy]. *)
Definition comparatorFor (sortBy : string) : ProcessedSubject -> ProcessedSubject -> option Q :=
  if String.eqb sortBy "danger" then byDanger
  else if String.eqb sortBy "name" then byName
  else if String.eqb sortBy "percentage" then byPercentage
  else byDanger.

(** [sortSubjects(subjects, sortBy = 'danger')] on a heap: an omitted
    [sortBy] ([None]) takes the default; [[...subjects]] allocates a new
    array holding the elements of [subjects], [sorted.sort(...)] rewrites
    that new array in place, and its reference is returned with the
    resulting heap.  A reference that is not allocated has no result. *)
Definition sortSubjects (h : Heap) (subjects : loc) (sortBy : option string)
    : option (loc * Heap) :=
  let sortBy := match sortBy with Some key => key | None => "danger"%string end in
  match h !! subjects with
  | None => None
  | Some elems =>
      let sorted := fresh (dom h) in
      let h1 := <[sorted := elems]> h in
      let h2 := alter (array_sort (comparatorFor sortBy)) sorted h1 in
      Some (sorted, h2)
  end.

End Sorting.

(** ** Aggregate statistics *)

Record AggregateStats : Type := mkAggregateStats {
  totalSubjects : nat;
  averageAttendance : option Q;
  safeCount : nat;
  borderlineCount : nat;
  criticalCount : nat;
  mostAtRisk : option ProcessedSubject
}.

(** The mutable locals of the loop of [calculateAggregateStats];
    [totalPercentage] is [None] once it has become [NaN]. *)
Record StatsLoop : Type := mkStatsLoop {
  totalPercentage : option Q;
  sl_safeCount : nat;
  sl_borderlineCount : nat;
  sl_criticalCount : nat;
  sl_mostAtRisk : option ProcessedSubject;
  lowestPercentage : Q
}.

Definition statsLoop_init : StatsLoop :=
  {| totalPercentage := Some 0;
     sl_safeCount := 0;
     sl_borderlineCount := 0;
     sl_criticalCount := 0;
     sl_mostAtRisk := None;
     lowestPercentage := 100 |}.

(** [subject.percentage < lowestPercentage]; a comparison with
    [undefined] is false. *)
Definition belowLowest (subject : ProcessedSubject) (lowest : Q) : bool :=
  match ps_percentage subject with
  | Some p => Qltb p lowest
  | None => false
  end.

Definition statsLoop_step (st : StatsLoop) (subject : ProcessedSubject) : StatsLoop :=
  let lower := belowLowest subject (lowestPercentage st) in
  {| totalPercentage := js_add (totalPercentage st) (ps_percentage subject);
     sl_safeCount :=
       match ps_status subject with safe => S (sl_safeCount st) | _ => sl_safeCount st end;
     sl_borderlineCount :=
       match ps_status subject with
       | borderline => S (sl_borderlineCount st) | _ => sl_borderlineCount st end;
     sl_criticalCount :=
       match ps_status subject with
       | critical => S (sl_criticalCount st) | _ => sl_criticalCount st end;
     sl_mostAtRisk := if lower then Some subject else sl_mostAtRisk st;
     lowestPercentage :=
       if lower then
         match ps_percentage subject with Some p => p | None => lowestPercentage st end
       else lowestPercentage st |}.

Definition calculateAggregateStats (subjects : list ProcessedSubject) (threshold : Q)
    : AggregateStats :=
  if (length subjects =? 0)%nat then
    {| totalSubjects := 0;
       averageAttendance := Some 0;
       safeCount := 0;
       borderlineCount := 0;
       criticalCount := 0;
       mostAtRisk := None |}
  else
    let st := fold_left statsLoop_step subjects statsLoop_init in
    {| totalSubjects := length subjects;
       averageAttendance :=
         match totalPercentage st with
         | Some total => Some (total / inject_Z (Z.of_nat (length subjects)))
         | None => None
         end;
       safeCount := sl_safeCount st;
       borderlineCount := sl_borderlineCount st;
       criticalCount := sl_criticalCount st;
       mostAtRisk := sl_mostAtRisk st |}.

(** ** Predicates and reference definitions used by the statements *)

(** No component of the subject has [conducted > 0]. *)
Definition noComponentConducted (cs : Components) : Prop :=
  Forall (fun entry => (conducted (snd entry) <= 0)%Z) cs.

(** Every carry-forward value of the subject is 0. *)
Definition noCarryForward (cs : Components) : Prop :=
  Forall (fun entry => tcbr (snd entry) = 0%Z) cs.

(** The sanity conditions the extraction layer enforces on a row
    ([validateRowData] in [src/content.js]). *)
Definition validComponent (c : Component) : Prop :=
  (0 <= attended c <= conducted c)%Z /\ (0 <= tcbr c <= conducted c)%Z.

Definition validComponents (cs : Components) : Prop :=
  Forall (fun entry => validComponent (snd entry)) cs.

(** A percentage in [[0, 100]]. *)
Definition inRange (p : Q) : Prop := 0 <= p /\ p <= 100.

(** The per-component skip capacities of a subject, in key order. *)
Definition skipCapacities (m : AttendanceMode) (cs : Components) (threshold : Q)
    : list Z :=
  map (fun entry =>
         classesCanSkip m (attended (snd entry)) (conducted (snd entry))
           threshold (tcbr (snd entry))) cs.

(** Minimum of a list of integers; [None] for the empty list. *)
Fixpoint list_minimum (l : list Z) : option Z :=
  match l with
  | [] => None
  | x :: l' =>
      match list_minimum l' with
      | None => Some x
      | Some y => Some (Z.min x y)
      end
  end.

(** The subject-level skip capacity in the specification's words: the
    minimum of the positive per-component capacities, capped at 100;
    it is not defined ([None]) when no capacity is positive. *)
Definition spec_minPositiveSkip (m : AttendanceMode) (cs : Components) (threshold : Q)
    : option Z :=
  match list_minimum (filter (fun k => (0 <? k)%Z) (skipCapacities m cs threshold)) with
  | Some k => Some (Z.min k 100)
  | None => None
  end.

(** The subjects of a raw-data container (none when the container or its
    [subjects] field is missing). *)
Definition subjectsOf (rawData : option RawData) : list (string * SubjectRecord) :=
  match rawData with
  | Some raw => match subjects raw with Some subs => subs | None => [] end
  | None => []
  end.

(** Every carry-forward value of the raw data is 0. *)
Definition rawNoCarryForward (rawData : option RawData) : Prop :=
  Forall (fun entry => noCarryForward (components (snd entry))) (subjectsOf rawData).

(** Every component of the raw data passes the extraction layer's sanity
    conditions. *)
Definition validRaw (rawData : option RawData) : Prop :=
  Forall (fun entry => validComponents (components (snd entry))) (subjectsOf rawData).

(** Every subject of the raw data has at least one component. *)
Definition nonEmptyRaw (rawData : option RawData) : Prop :=
  Forall (fun entry => components (snd entry) <> []) (subjectsOf rawData).

(** ** Ranges of the derived values *)

Definition jsnum_nonneg (x : jsnum) : Prop :=
  match x with Finite z => (0 <= z)%Z | Infinity => True end.

Definition nextClassInRange (s : NextClassSimulation) : Prop :=
  inRange (currentPercentage s) /\ inRange (newPercentage s) /\
  0 <= percentageDrop s.

Definition componentDataInRange (d : ComponentData) : Prop :=
  inRange (cd_percentage d) /\
  jsnum_nonneg (cd_classesNeeded d) /\
  (0 <= cd_canSkip d <= 100)%Z /\
  nextClassInRange (cd_nextClassSimulation d) /\
  (0 <= cd_conducted d)%Z /\ (0 <= cd_attended d)%Z /\
  (0 <= cd_effectiveAttended d)%Z /\ (0 <= cd_tcbr d)%Z.

Definition subjectResultInRange (r : SubjectResult) : Prop :=
  inRange (sr_percentage r) /\
  0 <= sr_dangerScore r /\
  Forall (fun entry => componentDataInRange (snd entry)) (sr_componentData r) /\
  inRange (sr_weakestPercentage r) /\
  (0 <= sr_totalClassesNeeded r <= 300)%Z /\
  (0 <= sr_canSkip r <= 100)%Z.

Definition simulationInRange (s : SubjectSimulation) : Prop :=
  match s with
  | SimEmpty _ needed skip => (0 <= needed)%Z /\ (0 <= skip)%Z
  | SimFull r => subjectResultInRange r
  end.

Definition processedInRange (p : ProcessedSubject) : Prop :=
  (0 <= ps_totalConducted p)%Z /\ (0 <= ps_totalAttended p)%Z /\
  (0 <= ps_totalEffectiveAttended p)%Z /\ (0 <= ps_totalAbsent p)%Z /\
  simulationInRange (ps_simulation p).

(** The invariant of the loop of [calculateSubjectSimulation]. *)
Definition simLoopInRange (st : SimLoop) : Prop :=
  Forall (fun entry => componentDataInRange (snd entry)) (componentData st) /\
  inRange (weakestPercentage st) /\
  jsnum_nonneg (totalClassesNeeded st) /\
  match minCanSkip st with
  | Finite k => (0 <= k <= 100)%Z
  | Infinity => True
  end.

(** ** Sample data *)

Definition sampleMaths : SubjectRecord :=
  mkSubjectRecord "MA101" "Mathematics" [("L"%string, mkComponent 50 30 5)].
Definition samplePhysics : SubjectRecord :=
  mkSubjectRecord "PH101" "Physics"
    [("L"%string, mkComponent 40 20 0); ("P"%string, mkComponent 10 5 0)].
Definition sampleChemistry : SubjectRecord :=
  mkSubjectRecord "CH101" "Chemistry" [("L"%string, mkComponent 20 10 0)].
Definition sampleEnglish : SubjectRecord :=
  mkSubjectRecord "EN101" "English" [("L"%string, mkComponent 10 10 0)].

Definition sampleRaw : option RawData :=
  Some (mkRawData (Some
    [("MA101"%string, sampleMaths); ("PH101"%string, samplePhysics);
     ("CH101"%string, sampleChemistry)])).

(** ** Per-component readings used by the further properties *)

(** The percentage and the classes needed of one component record. *)
Definition componentPercentageOf (m : AttendanceMode) (comp : Component) : Q :=
  calculateComponentPercentage m (attended comp) (conducted comp) (tcbr comp).

Definition classesNeededOf (m : AttendanceMode) (threshold : Q) (comp : Component)
    : jsnum :=
  classesNeededToReachThreshold m (attended comp) (conducted comp) threshold (tcbr comp).

(** The sum of one field over the components of a subject. *)
Definition sumOf (field : Component -> Z) (cs : Components) : Z :=
  fold_right Z.add 0%Z (map (fun entry => field (snd entry)) cs).

(** [comparefn] orders the elements of [l] by the number [key]: its
    result, read as [SortCompare] reads it, is at most 0 exactly when the
    first key is at most the second. *)
Definition ordersByKey {A : Type} (comparefn : A -> A -> option Q) (key : A -> Q)
    (l : list A) : Prop :=
  forall x y, In x l -> In y l ->
    (SortCompare comparefn x y <= 0 <-> key x <= key y).

(** [subject.status === st], for counting the subjects of one status. *)
Definition statusIs (st : Status) (subject : ProcessedSubject) : bool :=
  match st, ps_status subject with
  | safe, safe | borderline, borderline | critical, critical => true
  | _, _ => false
  end.

(** ** The extraction layer ([src/content.js])

    The DOM reads of the content script (finding the table, mapping its
    columns, reading the cells of a row) are outside this model; what is
    modelled is what the script does with the rows once they are read:
    the sanity guards of [validateRowData] and the grouping loop of
    [scrapeAttendanceData]. *)

(** The object returned by [extractRowData]. *)
Record RowData : Type := mkRowData {
  rd_courseCode : string;
  rd_courseName : string;
  rd_ltpsType : string;
  rd_totalConducted : Z;
  rd_totalAttended : Z;
  rd_tcbr : Z
}.

Definition validateRowData (rowData : RowData) : bool :=
  if (300 <? rd_totalConducted rowData)%Z then false
  else if (rd_totalConducted rowData <? rd_totalAttended rowData)%Z then false
  else if (rd_totalConducted rowData <? 0)%Z || (rd_totalAttended rowData <? 0)%Z
  then false
  else if (rd_totalConducted rowData <? rd_tcbr rowData)%Z then false
  else true.

(** Property read [o[key]] and property write [o[key] = v] on an object
    held in key order: a write to an existing key keeps the key's place,
    a write to a new key appends it.  (Keys are taken not to be names of
    [Object.prototype]; all-digit course codes, which JavaScript would
    reorder, are rejected by [extractRowData].) *)
Fixpoint obj_get {V : Type} (key : string) (o : list (string * V)) : option V :=
  match o with
  | [] => None
  | (k, v) :: o' => if String.eqb k key then Some v else obj_get key o'
  end.

Fixpoint obj_set {V : Type} (key : string) (v : V) (o : list (string * V))
    : list (string * V) :=
  match o with
  | [] => [(key, v)]
  | (k, w) :: o' =>
      if String.eqb k key then (k, v) :: o' else (k, w) :: obj_set key v o'
  end.

(** The body of the loop of [scrapeAttendanceData] for a row that passed
    [extractRowData] and [validateRowData]: create the subject if its
    code is new, write the component under its LTPS label, and keep the
    longer course name.  ([String.length] counts the characters of the
    model's strings as [.length] counts code units.) *)
Definition addRow (subjects : list (string * SubjectRecord)) (rowData : RowData)
    : list (string * SubjectRecord) :=
  let subjectKey := rd_courseCode rowData in
  let subject :=
    match obj_get subjectKey subjects with
    | Some subject => subject
    | None =>
        {| courseCode := rd_courseCode rowData;
           courseName := rd_courseName rowData;
           components := [] |}
    end in
  let comps :=
    obj_set (rd_ltpsType rowData)
      {| conducted := rd_totalConducted rowData;
         attended := rd_totalAttended rowData;
         tcbr := rd_tcbr rowData |}
      (components subject) in
  let name :=
    if (String.length (courseName subject) <? String.length (rd_courseName rowData))%nat
    then rd_courseName rowData
    else courseName subject in
  obj_set subjectKey
    {| courseCode := courseCode subject; courseName := name; components := comps |}
    subjects.

(** One iteration of the loop; [None] is a row [extractRowData] returned
    [null] for (or one with fewer than three cells). *)
Definition scrape_step (subjects : list (string * SubjectRecord))
    (row : option RowData) : list (string * SubjectRecord) :=
  match row with
  | None => subjects
  | Some rowData => if validateRowData rowData then addRow subjects rowData else subjects
  end.

(** [scrapeAttendanceData] from the rows of the table on: the grouped
    subjects, or the message of the [Error] it throws when no row is
    valid.  (The fields [scrapedAt] and [pageUrl] of the result are left
    out.) *)
Definition scrapeAttendanceData (rows : list (option RowData)) : string + RawData :=
  let subjects := fold_left scrape_step rows [] in
  if (length subjects =? 0)%nat then
    inl "No valid attendance data found. The table may be empty or in an unexpected format."%string
  else inr {| subjects := Some subjects |}.

(** The property names an object inherits from [Object.prototype].  For
    a course code among them [subjects[code]] reads the inherited value,
    no subject is created, and the write to its [components] throws a
    [TypeError]; [addRow] describes the rows whose code is none of
    them. *)
Definition objectPrototypeNames : list string :=
  ["constructor"; "hasOwnProperty"; "isPrototypeOf"; "propertyIsEnumerable";
   "toLocaleString"; "toString"; "valueOf"; "__proto__"; "__defineGetter__";
   "__defineSetter__"; "__lookupGetter__"; "__lookupSetter__"]%string.

Definition ownCourseCodes (rows : list (option RowData)) : Prop :=
  forall rd, In (Some rd) rows -> validateRowData rd = true ->
    ~ In (rd_courseCode rd) objectPrototypeNames.

(** The bounds [validateRowData] puts on a row, as a predicate on the
    component built from it. *)
Definition scrapedComponent (c : Component) : Prop :=
  (0 <= attended c <= conducted c)%Z /\ (conducted c <= 300)%Z /\
  (tcbr c <= conducted c)%Z.

(** What every subject of a scrape result satisfies. *)
Definition scrapedSubject (entry : string * SubjectRecord) : Prop :=
  courseCode (snd entry) = fst entry /\
  components (snd entry) <> [] /\
  List.NoDup (map fst (components (snd entry))) /\
  Forall (fun c => scrapedComponent (snd c)) (components (snd entry)).

(** [subjects[code].components[label]], [None] when either key is
    missing. *)
Definition lookupComponent (subjects : list (string * SubjectRecord))
    (code label : string) : option Component :=
  match obj_get code subjects with
  | Some subject => obj_get label (components subject)
  | None => None
  end.

(** The component a row contributes. *)
Definition componentOfRow (rowData : RowData) : Component :=
  {| conducted := rd_totalConducted rowData;
     attended := rd_totalAttended rowData;
     tcbr := rd_tcbr rowData |}.

(** Sample rows: two rows of one subject, a row [extractRowData]
    rejected, a row with more classes attended than conducted, and a row
    of a second subject. *)
Definition sampleRows : list (option RowData) :=
  [Some (mkRowData "CS101" "Algorithms" "L" 50 40 0);
   None;
   Some (mkRowData "CS101" "Algorithms" "T" 10 12 0);
   Some (mkRowData "CS101" "Algorithms and Data Structures" "P" 10 5 0);
   Some (mkRowData "MA101" "Mathematics" "L" 20 18 2);
   Some (mkRowData "CS101" "Algorithms" "L" 52 41 0)].

(** ** Reading a number from a cell ([getCellNumber])

    [parseInt(val.replace(/[^0-9-]/g, ''), 10)], with [NaN] replaced by
    0.  After the replacement the text holds digits and minus signs only,
    so of [parseInt] only this is left: an optional leading minus sign,
    then the longest run of digits, and [NaN] ([None]) when that run is
    empty.  (The value is exact here; [parseInt] returns the nearest
    binary64 number, which is the value itself up to 2^53.) *)

Definition isDigit (c : ascii) : bool :=
  (48 <=? nat_of_ascii c)%nat && (nat_of_ascii c <=? 57)%nat.

Definition digitValue (c : ascii) : Z := (Z.of_nat (nat_of_ascii c) - 48)%Z.

(** [val.replace(/[^0-9-]/g, '')] *)
Fixpoint keepNumeric (val : string) : string :=
  match val with
  | EmptyString => EmptyString
  | String c rest =>
      if isDigit c || Ascii.eqb c "-" then String c (keepNumeric rest)
      else keepNumeric rest
  end.

(** The value of the longest run of digits at the start of [s], on top
    of the digits read so far; [None] while no digit has been read. *)
Fixpoint parseDigits (s : string) (acc : option Z) : option Z :=
  match s with
  | EmptyString => acc
  | String c rest =>
      if isDigit c then
        parseDigits rest
          (Some (10 * (match acc with Some a => a | None => 0 end) + digitValue c)%Z)
      else acc
  end.

Definition parseInt10 (s : string) : option Z :=
  match s with
  | String c rest =>
      if Ascii.eqb c "-" then option_map Z.opp (parseDigits rest None)
      else parseDigits s None
  | EmptyString => None
  end.

Definition getCellNumber (val : string) : Z :=
  match parseInt10 (keepNumeric val) with
  | Some num => num
  | None => 0%Z
  end.

(** The decimal numeral of a natural number. *)
Definition numeral (n : nat) : string := NilZero.string_of_uint (Nat.to_uint n).

(** Text without a digit, and text without a digit or a minus sign. *)
Fixpoint noDigit (s : string) : Prop :=
  match s with
  | EmptyString => True
  | String c rest => isDigit c = false /\ noDigit rest
  end.

Definition noNumeric (s : string) : Prop := keepNumeric s = EmptyString.

(** ** Relative time ([formatRelativeTime] of the popup script)

    The function reads the clock ([new Date()]) and subtracts its
    argument; the difference in milliseconds, an integer, is the argument
    here.  [Math.floor] of a quotient by a positive integer is [Z.div],
    and a positive integer in a template literal is its decimal
    numeral. *)
Definition formatRelativeTime (diffMs : Z) : string :=
  let diffMins := (diffMs / 60000)%Z in
  if (diffMins <? 1)%Z then "Just now"%string
  else if (diffMins <? 60)%Z then (numeral (Z.to_nat diffMins) ++ "m ago")%string
  else
    let diffHours := (diffMins / 60)%Z in
    if (diffHours <? 24)%Z then (numeral (Z.to_nat diffHours) ++ "h ago")%string
    else
      let diffDays := (diffHours / 24)%Z in
      (numeral (Z.to_nat diffDays) ++ "d ago")%string.




(** ** The calculator on binary64

    The same functions with the numbers of the source as they are at run
    time: IEEE 754 binary64 values, every operation rounded to nearest
    (Rocq's primitive floats).  Each definition follows its source line
    by line, comparisons included ([x >= y] is [y <=? x], and every
    comparison with [NaN] is false).  The integer results stay numbers,
    as in the source; [infinity] is the [Infinity] of the source. *)
Module F64.
Import PrimFloat.
Local Open Scope float_scope.

(** An integer as a number; exact for magnitudes up to 2^53. *)
Definition ofZ (z : Z) : float :=
  match z with
  | Z0 => 0
  | Zpos _ => of_uint63 (Uint63.of_Z z)
  | Zneg p => - of_uint63 (Uint63.of_Z (Zpos p))
  end.

(** The exact value of a finite number. *)
Definition toQ (x : float) : option Q :=
  match FloatOps.Prim2SF x with
  | SpecFloat.S754_zero _ => Some 0%Q
  | SpecFloat.S754_finite s m e =>
      Some (inject_Z (if s then Zneg m else Zpos m) * Qpower 2 e)%Q
  | _ => None
  end.

(** [Math.floor]: a finite number with exponent [e >= 0] is an integer
    already; otherwise the mantissa [m] is divided by [2^(-e)], rounding
    the magnitude down for a positive number and up for a negative one.
    Zeros, infinities and [NaN] are returned unchanged. *)
Definition Math_floor (x : float) : float :=
  match FloatOps.Prim2SF x with
  | SpecFloat.S754_finite s m e =>
      if (0 <=? e)%Z then x
      else
        let d := (2 ^ (- e))%Z in
        let q := (Zpos m / d)%Z in
        if s then (if (Zpos m mod d =? 0)%Z then - ofZ q else - ofZ (q + 1))
        else ofZ q
  | _ => x
  end.

(** [Math.ceil(x)] is [-Math.floor(-x)], signed zero included. *)
Definition Math_ceil (x : float) : float := - Math_floor (- x).

(** [Math.max] of two numbers: [NaN] if either is, and [+0] above [-0]. *)
Definition Math_max (a b : float) : float :=
  if is_nan a || is_nan b then nan
  else if a <? b then b
  else if b <? a then a
  else if get_sign a then b else a.

(** [x || 0]: the falsy numbers are the zeros and [NaN]. *)
Definition orZero (x : float) : float :=
  if is_nan x || (x =? 0) then 0 else x.

Definition getEffectiveAttended (attendanceMode : AttendanceMode)
    (attended tcbr : float) : float :=
  match attendanceMode with
  | TCBR_CORRECTED => attended + orZero tcbr
  | ERP => attended
  end.

Definition calculateComponentPercentage (attendanceMode : AttendanceMode)
    (attended conducted tcbr : float) : float :=
  if conducted <=? 0 then 100
  else
    let effectiveAttended := getEffectiveAttended attendanceMode attended tcbr in
    let percentage := (effectiveAttended / conducted) * 100 in
    if percentage <? 0 then 0
    else if 100 <? percentage then 100
    else percentage.

Definition getStatus (percentage threshold : float) : Status :=
  if threshold + 5 <=? percentage then safe
  else if threshold <=? percentage then borderline
  else critical.

Definition calculateDangerScore (percentage threshold : float) : float :=
  if threshold <=? percentage then Math_max 0 (threshold + 10 - percentage)
  else 50 + (threshold - percentage).

Definition classesNeededToReachThreshold (attendanceMode : AttendanceMode)
    (attended conducted threshold tcbr : float) : float :=
  let effectiveAttended := getEffectiveAttended attendanceMode attended tcbr in
  let currentPercentage :=
    calculateComponentPercentage attendanceMode attended conducted tcbr in
  if threshold <=? currentPercentage then 0
  else if 100 <=? threshold then
    (if effectiveAttended <? conducted then infinity else 0)
  else
    let thresholdDecimal := threshold / 100 in
    let numerator := thresholdDecimal * conducted - effectiveAttended in
    let denominator := 1 - thresholdDecimal in
    if denominator <=? 0 then infinity
    else
      let classesNeeded := Math_ceil (numerator / denominator) in
      Math_max 0 classesNeeded.

Definition classesCanSkip (attendanceMode : AttendanceMode)
    (attended conducted threshold tcbr : float) : float :=
  let effectiveAttended := getEffectiveAttended attendanceMode attended tcbr in
  let currentPercentage :=
    calculateComponentPercentage attendanceMode attended conducted tcbr in
  if currentPercentage <? threshold then 0
  else if threshold <=? 0 then 100
  else
    let thresholdDecimal := threshold / 100 in
    let numerator := effectiveAttended - thresholdDecimal * conducted in
    let denominator := thresholdDecimal in
    if denominator <=? 0 then 100
    else
      let canSkip := Math_floor (numerator / denominator) in
      if 100 <? canSkip then 100 else Math_max 0 canSkip.

End F64.

(** * Properties *)

(** ** Comparisons and rounding *)

Lemma Qltb_lt (a b : Q) : Qltb a b = true <-> a < b.
Proof.
  unfold Qltb. rewrite negb_true_iff. split.
  - intros E. apply Qnot_le_lt. intros H. apply Qle_bool_iff in H. congruence.
  - intros H. destruct (Qle_bool b a) eqn:E; [| reflexivity].
    apply Qle_bool_iff in E. lra.
Qed.

Lemma Qltb_ge (a b : Q) : Qltb a b = false <-> b <= a.
Proof.
  unfold Qltb. rewrite negb_false_iff. apply Qle_bool_iff.
Qed.

Lemma Qle_bool_gt (a b : Q) : Qle_bool a b = false <-> b < a.
Proof.
  split.
  - intros E. apply Qnot_le_lt. intros H. apply Qle_bool_iff in H. congruence.
  - intros H. destruct (Qle_bool a b) eqn:E; [| reflexivity].
    apply Qle_bool_iff in E. lra.
Qed.

(** Case analysis on every boolean comparison of rationals in the goal. *)
Ltac qcases :=
  repeat match goal with
  | |- context [Qltb ?a ?b] =>
      let E := fresh "E" in
      destruct (Qltb a b) eqn:E;
      [apply Qltb_lt in E | apply Qltb_ge in E]
  | |- context [Qle_bool ?a ?b] =>
      let E := fresh "E" in
      destruct (Qle_bool a b) eqn:E;
      [apply Qle_bool_iff in E | apply Qle_bool_gt in E]
  end.

Lemma inject_Z_pos (z : Z) : (0 < z)%Z -> 0 < inject_Z z.
Proof. intros H. change 0 with (inject_Z 0). now rewrite <- Zlt_Qlt. Qed.

Lemma inject_Z_nonneg (z : Z) : (0 <= z)%Z -> 0 <= inject_Z z.
Proof. intros H. change 0 with (inject_Z 0). now rewrite <- Zle_Qle. Qed.

(** [e / c * 100] against a bound, without the division. *)
Lemma ratio_lt (e c t : Q) : 0 < c -> (e / c * 100 < t <-> e * 100 < t * c).
Proof.
  intros Hc.
  assert (He : e == e / c * c) by (field; lra).
  set (x := e / c) in *. split; intros H.
  - rewrite He. nra.
  - rewrite He in H. nra.
Qed.

Lemma ratio_le (e c t : Q) : 0 < c -> (t <= e / c * 100 <-> t * c <= e * 100).
Proof.
  intros Hc. pose proof (ratio_lt e c t Hc) as [H1 H2]. split; intros H.
  - apply Qnot_lt_le. intros K. apply H2 in K. lra.
  - apply Qnot_lt_le. intros K. apply H1 in K. lra.
Qed.

(** Division by the constant 100, in the form linear arithmetic accepts. *)
Lemma div_100 (t : Q) : t / 100 = t * (1 # 100).
Proof. reflexivity. Qed.


(** ** Component percentage *)

Lemma componentPercentage_noData (m : AttendanceMode) (a c tc : Z) :
  (c <= 0)%Z -> calculateComponentPercentage m a c tc = 100.
Proof.
  intros H. unfold calculateComponentPercentage.
  destruct (c <=? 0)%Z eqn:E; [reflexivity | apply Z.leb_gt in E; lia].
Qed.

Lemma componentPercentage_inRange (m : AttendanceMode) (a c tc : Z) :
  inRange (calculateComponentPercentage m a c tc).
Proof.
  unfold inRange, calculateComponentPercentage.
  destruct (c <=? 0)%Z; [lra |]. cbv zeta. qcases; lra.
Qed.


(** ** Danger score *)



Lemma dangerScore_nonneg (p t : Q) : 0 <= calculateDangerScore p t.
Proof.
  unfold calculateDangerScore, Math_max. qcases; lra.
Qed.



(** ** Classes needed to reach the threshold *)

Lemma classesNeeded_at_threshold (m : AttendanceMode) (a c tc : Z) (t : Q) :
  t <= calculateComponentPercentage m a c tc ->
  classesNeededToReachThreshold m a c t tc = Finite 0.
Proof.
  intros H. unfold classesNeededToReachThreshold. cbv zeta.
  apply Qle_bool_iff in H. now rewrite H.
Qed.


Lemma getEffectiveAttended_nonneg (m : AttendanceMode) (a tc : Z) :
  (0 <= a)%Z -> (0 <= tc)%Z -> (0 <= getEffectiveAttended m a tc)%Z.
Proof. intros Ha Ht. destruct m; simpl; lia. Qed.







Lemma componentPercentage_lt_100 (m : AttendanceMode) (a c tc : Z) :
  (0 <= getEffectiveAttended m a tc < c)%Z ->
  calculateComponentPercentage m a c tc < 100.
Proof.
  intros [H0 Hlt]. unfold calculateComponentPercentage.
  destruct (c <=? 0)%Z eqn:Ec; [apply Z.leb_le in Ec; lia |]. cbv zeta.
  assert (Hc : 0 < inject_Z c) by (apply inject_Z_pos; lia).
  assert (Hr : inject_Z (getEffectiveAttended m a tc) / inject_Z c * 100 < 100).
  { apply ratio_lt; [exact Hc |]. rewrite Zlt_Qlt in Hlt. lra. }
  qcases; lra.
Qed.

(** C5 (amended): for non-negative counts and a threshold of at least
    100, [classesNeededToReachThreshold] returns 0 when the effective
    attended count is at least [conducted] (equal to it, or above it as
    [attended + tcbr] can be in the corrected mode), and the [Infinity]
    sentinel when it is below [conducted]; attended 8, conducted 10,
    threshold 100 gives the sentinel and attended = conducted = 10
    gives 0. *)
Theorem classesNeeded_threshold_100 (m : AttendanceMode) (a c tc : Z) (t : Q) :
  (0 <= a)%Z -> (0 <= c)%Z -> (0 <= tc)%Z -> 100 <= t ->
  ((c <= getEffectiveAttended m a tc)%Z ->
     classesNeededToReachThreshold m a c t tc = Finite 0) /\
  ((getEffectiveAttended m a tc < c)%Z ->
     classesNeededToReachThreshold m a c t tc = Infinity) /\
  classesNeededToReachThreshold ERP 8 10 100 0 = Infinity /\
  classesNeededToReachThreshold ERP 10 10 100 0 = Finite 0.
Proof.
  intros Ha Hc Htc Ht.
  pose proof (getEffectiveAttended_nonneg m a tc Ha Htc) as He.
  apply Qle_bool_iff in Ht.
  split; [| split; [| split; reflexivity]].
  - intros Hge. unfold classesNeededToReachThreshold. cbv zeta.
    destruct (Qle_bool t _); [reflexivity |]. rewrite Ht.
    apply Z.ltb_ge in Hge. now rewrite Hge.
  - intros Hlt. unfold classesNeededToReachThreshold. cbv zeta.
    pose proof (componentPercentage_lt_100 m a c tc (conj He Hlt)) as Hp.
    apply Qle_bool_iff in Ht.
    assert (Hb : Qle_bool t (calculateComponentPercentage m a c tc) = false)
      by (apply Qle_bool_gt; lra).
    rewrite Hb. apply Qle_bool_iff in Ht. rewrite Ht.
    apply Z.ltb_lt in Hlt. now rewrite Hlt.
Qed.

Lemma classesNeeded_threshold_100_witness :
  classesNeededToReachThreshold TCBR_CORRECTED 10 10 100 2 = Finite 0 /\
  classesNeededToReachThreshold TCBR_CORRECTED 7 10 100 2 = Infinity.
Proof.
  destruct (classesNeeded_threshold_100 TCBR_CORRECTED 10 10 2 100)
    as (H1 & _); [lia | lia | lia | discriminate |].
  destruct (classesNeeded_threshold_100 TCBR_CORRECTED 7 10 2 100)
    as (_ & H2 & _); [lia | lia | lia | discriminate |].
  split; [apply H1 | apply H2]; simpl; lia.
Defined.

(** C5 (as stated): in the corrected mode attended = conducted = 10 with
    tcbr = 2 is a valid row whose effective attended count, 12, differs
    from [conducted]; at threshold 100 the claim asks for the sentinel,
    the function returns 0. *)
Lemma classesNeeded_threshold_100_effective_above :
  (0 <= 10 <= 10)%Z /\ (0 <= 2 <= 10)%Z /\ 100 <= 100 /\
  getEffectiveAttended TCBR_CORRECTED 10 2 <> 10%Z /\
  classesNeededToReachThreshold TCBR_CORRECTED 10 10 100 2 = Finite 0 /\
  classesNeededToReachThreshold TCBR_CORRECTED 10 10 100 2 <> Infinity.
Proof.
  repeat split; try lia; try discriminate.
Qed.

(** ** Subject percentage without data *)

Lemma fold_left_ext_Forall {A B : Type} (f g : A -> B -> A) (P : B -> Prop)
    (l : list B) (a : A) :
  (forall x y, P y -> f x y = g x y) ->
  Forall P l -> fold_left f l a = fold_left g l a.
Proof.
  intros Hfg Hl. revert a.
  induction Hl as [| y l Hy _ IH]; intros a; simpl; [reflexivity |].
  rewrite Hfg by exact Hy. apply IH.
Qed.

Lemma subjectPercentage_fold_noData (m : AttendanceMode) (cs : Components)
    (acc : Q * Z) :
  noComponentConducted cs ->
  fold_left (subjectPercentage_step m) cs acc = acc.
Proof.
  intros H. revert acc.
  induction H as [| entry cs He _ IH]; intros acc; simpl; [reflexivity |].
  unfold subjectPercentage_step at 2.
  destruct (0 <? conducted (snd entry))%Z eqn:E; [apply Z.ltb_lt in E; lia |].
  apply IH.
Qed.

Lemma length_eqb_nonempty {A : Type} (l : list A) :
  l <> [] -> (length l =? 0)%nat = false.
Proof. destruct l; [congruence | reflexivity]. Qed.

(** C1 (amended): for a subject whose component mapping is not empty and
    in which no component has [conducted > 0], [calculateSubjectPercentage]
    returns 100 and the subject's result carries that percentage; for an
    empty mapping [calculateSubjectPercentage] returns 0 and
    [calculateSubjectSimulation] returns the three-field object
    [{status: 'safe', classesNeeded: 0, canSkip: 0}], which has no
    percentage. *)
Theorem subjectPercentage_noData (m : AttendanceMode) (cs : Components) (t : Q) :
  noComponentConducted cs ->
  (cs <> [] ->
     calculateSubjectPercentage m cs = 100 /\
     sim_percentage (calculateSubjectSimulation m cs t) = Some 100) /\
  (cs = [] ->
     calculateSubjectPercentage m cs = 0 /\
     calculateSubjectSimulation m cs t = SimEmpty safe 0 0).
Proof.
  intros H. split.
  - intros Hne.
    assert (Hp : calculateSubjectPercentage m cs = 100).
    { unfold calculateSubjectPercentage.
      rewrite (length_eqb_nonempty cs Hne).
      now rewrite (subjectPercentage_fold_noData m cs _ H). }
    split; [exact Hp |].
    unfold calculateSubjectSimulation.
    rewrite (length_eqb_nonempty cs Hne). simpl. now rewrite Hp.
  - intros ->. split; reflexivity.
Qed.

Lemma subjectPercentage_noData_witness :
  calculateSubjectPercentage ERP [("L"%string, mkComponent 0 0 0)] = 100 /\
  sim_percentage
    (calculateSubjectSimulation ERP [("L"%string, mkComponent 0 0 0)] 75) = Some 100.
Proof.
  apply (subjectPercentage_noData ERP [("L"%string, mkComponent 0 0 0)] 75).
  - repeat constructor. simpl. lia.
  - discriminate.
Defined.

(** C1 (as stated): the empty component mapping has no component with
    [conducted > 0], yet its subject percentage is 0, not 100, and the
    subject's result has no percentage at all. *)
Lemma subjectPercentage_empty_not_100 :
  noComponentConducted [] /\
  calculateSubjectPercentage ERP [] = 0 /\
  ~ calculateSubjectPercentage ERP [] == 100 /\
  sim_percentage (calculateSubjectSimulation ERP [] 75) = None.
Proof.
  repeat split; try constructor. discriminate.
Qed.

(** ** The two modes without carry-forward *)

Lemma getEffectiveAttended_noCarry (m : AttendanceMode) (a : Z) :
  getEffectiveAttended m a 0 = a.
Proof. destruct m; simpl; [reflexivity | apply Z.add_0_r]. Qed.

Lemma componentPercentage_noCarry (m : AttendanceMode) (a c : Z) :
  calculateComponentPercentage m a c 0 = calculateComponentPercentage ERP a c 0.
Proof.
  unfold calculateComponentPercentage.
  now rewrite !getEffectiveAttended_noCarry.
Qed.

Lemma classesNeeded_noCarry (m : AttendanceMode) (a c : Z) (t : Q) :
  classesNeededToReachThreshold m a c t 0 = classesNeededToReachThreshold ERP a c t 0.
Proof.
  unfold classesNeededToReachThreshold.
  now rewrite (componentPercentage_noCarry m), !getEffectiveAttended_noCarry.
Qed.

Lemma classesCanSkip_noCarry (m : AttendanceMode) (a c : Z) (t : Q) :
  classesCanSkip m a c t 0 = classesCanSkip ERP a c t 0.
Proof.
  unfold classesCanSkip.
  now rewrite (componentPercentage_noCarry m), !getEffectiveAttended_noCarry.
Qed.

Lemma simulateMiss_noCarry (m : AttendanceMode) (a c : Z) (t : Q) :
  simulateMissNextClass m a c t 0 = simulateMissNextClass ERP a c t 0.
Proof.
  unfold simulateMissNextClass.
  now rewrite !(componentPercentage_noCarry m).
Qed.

Lemma componentDataOf_noCarry (m : AttendanceMode) (t : Q) (comp : Component) :
  tcbr comp = 0%Z -> componentDataOf m t comp = componentDataOf ERP t comp.
Proof.
  intros H. unfold componentDataOf. rewrite H.
  now rewrite (componentPercentage_noCarry m), (classesNeeded_noCarry m),
    (classesCanSkip_noCarry m), (simulateMiss_noCarry m),
    !getEffectiveAttended_noCarry.
Qed.

Lemma subjectPercentage_noCarry (m : AttendanceMode) (cs : Components) :
  noCarryForward cs ->
  calculateSubjectPercentage m cs = calculateSubjectPercentage ERP cs.
Proof.
  intros H. unfold calculateSubjectPercentage.
  rewrite (fold_left_ext_Forall (subjectPercentage_step m)
             (subjectPercentage_step ERP) (fun entry => tcbr (snd entry) = 0%Z)
             cs (0, 0%Z)); [reflexivity | | exact H].
  intros acc entry He. unfold subjectPercentage_step. simpl in He. rewrite He.
  now rewrite (componentPercentage_noCarry m).
Qed.

Lemma subjectSimulation_noCarry (m : AttendanceMode) (cs : Components) (t : Q) :
  noCarryForward cs ->
  calculateSubjectSimulation m cs t = calculateSubjectSimulation ERP cs t.
Proof.
  intros H. unfold calculateSubjectSimulation.
  rewrite (subjectPercentage_noCarry m cs H).
  rewrite (fold_left_ext_Forall (simLoop_step m t) (simLoop_step ERP t)
             (fun entry => tcbr (snd entry) = 0%Z) cs simLoop_init);
    [reflexivity | | exact H].
  intros st entry He. unfold simLoop_step. simpl in He.
  now rewrite (componentDataOf_noCarry m t _ He).
Qed.

Lemma processSubject_noCarry (m : AttendanceMode) (t : Q) (subject : SubjectRecord) :
  noCarryForward (components subject) ->
  processSubject m t subject = processSubject ERP t subject.
Proof.
  intros H. unfold processSubject.
  rewrite (subjectSimulation_noCarry m _ t H).
  rewrite (fold_left_ext_Forall (totals_step m) (totals_step ERP)
             (fun entry => tcbr (snd entry) = 0%Z)
             (components subject) (0, 0, 0)%Z); [reflexivity | | exact H].
  intros [[tc ta] te] entry He. unfold totals_step. simpl in He. rewrite He.
  now rewrite !getEffectiveAttended_noCarry.
Qed.

Lemma processAllSubjects_noCarry (m : AttendanceMode) (rawData : option RawData)
    (t : Q) :
  rawNoCarryForward rawData ->
  processAllSubjects m rawData t = processAllSubjects ERP rawData t.
Proof.
  unfold rawNoCarryForward, subjectsOf, processAllSubjects.
  destruct rawData as [[[subs |]] |]; try reflexivity.
  simpl. intros H. induction H as [| entry subs He _ IH]; simpl; [reflexivity |].
  now rewrite (processSubject_noCarry m t _ He), IH.
Qed.

(** C9: when every carry-forward value is 0, each calculation of the
    engine gives the same result in the ERP (Standard) mode and in the
    TCBR_CORRECTED (CarryForwardCorrected) mode: the effective attended
    count, the component percentage, the classes needed, the classes that
    can be skipped, the miss-next-class simulation, the subject
    percentage, the subject simulation and the batch result.  (The
    status, the danger score, the sort and the aggregate statistics do
    not read the mode.) *)
Theorem modes_agree_without_carryForward :
  (forall a, getEffectiveAttended ERP a 0 = getEffectiveAttended TCBR_CORRECTED a 0) /\
  (forall a c,
     calculateComponentPercentage ERP a c 0 =
     calculateComponentPercentage TCBR_CORRECTED a c 0) /\
  (forall a c t,
     classesNeededToReachThreshold ERP a c t 0 =
     classesNeededToReachThreshold TCBR_CORRECTED a c t 0) /\
  (forall a c t,
     classesCanSkip ERP a c t 0 = classesCanSkip TCBR_CORRECTED a c t 0) /\
  (forall a c t,
     simulateMissNextClass ERP a c t 0 = simulateMissNextClass TCBR_CORRECTED a c t 0) /\
  (forall cs, noCarryForward cs ->
     calculateSubjectPercentage ERP cs = calculateSubjectPercentage TCBR_CORRECTED cs) /\
  (forall cs t, noCarryForward cs ->
     calculateSubjectSimulation ERP cs t =
     calculateSubjectSimulation TCBR_CORRECTED cs t) /\
  (forall rawData t, rawNoCarryForward rawData ->
     processAllSubjects ERP rawData t = processAllSubjects TCBR_CORRECTED rawData t).
Proof.
  repeat split; intros; symmetry.
  - apply getEffectiveAttended_noCarry.
  - apply componentPercentage_noCarry.
  - apply classesNeeded_noCarry.
  - apply classesCanSkip_noCarry.
  - apply simulateMiss_noCarry.
  - now apply subjectPercentage_noCarry.
  - now apply subjectSimulation_noCarry.
  - now apply processAllSubjects_noCarry.
Qed.

Lemma modes_agree_without_carryForward_witness :
  processAllSubjects ERP
    (Some (mkRawData (Some
       [("CS101"%string,
         mkSubjectRecord "CS101" "Algorithms"
           [("L"%string, mkComponent 50 40 0); ("P"%string, mkComponent 10 5 0)])])))
    75 =
  processAllSubjects TCBR_CORRECTED
    (Some (mkRawData (Some
       [("CS101"%string,
         mkSubjectRecord "CS101" "Algorithms"
           [("L"%string, mkComponent 50 40 0); ("P"%string, mkComponent 10 5 0)])])))
    75.
Proof.
  apply (proj2 (proj2 (proj2 (proj2 (proj2 (proj2 (proj2
           modes_agree_without_carryForward))))))).
  repeat constructor.
Defined.

(** ** Subject-level skip capacity *)

Lemma classesCanSkip_range (m : AttendanceMode) (a c tc : Z) (t : Q) :
  (0 <= classesCanSkip m a c t tc <= 100)%Z.
Proof.
  unfold classesCanSkip. cbv zeta.
  destruct (Qltb _ t); [lia |].
  destruct (Qle_bool t 0); [lia |].
  destruct (Qle_bool (t / 100) 0); [lia |].
  destruct (100 <? _)%Z eqn:E; [lia | apply Z.ltb_ge in E; lia].
Qed.

Lemma classesCanSkip_threshold_nonpos (m : AttendanceMode) (a c tc : Z) (t : Q) :
  t <= 0 -> classesCanSkip m a c t tc = 100%Z.
Proof.
  intros H. pose proof (componentPercentage_inRange m a c tc) as [Hp0 _].
  unfold classesCanSkip. cbv zeta.
  assert (Hb : Qltb (calculateComponentPercentage m a c tc) t = false)
    by (apply Qltb_ge; lra).
  rewrite Hb. apply Qle_bool_iff in H. now rewrite H.
Qed.

Lemma jsnum_lt_Finite (k : Z) (x : jsnum) :
  jsnum_lt (Finite k) x = false -> exists z, x = Finite z /\ (z <= k)%Z.
Proof.
  destruct x as [z |]; simpl; [| discriminate].
  intros H. apply Z.ltb_ge in H. now exists z.
Qed.

Lemma jsnum_lt_trans (k k' : Z) (x : jsnum) :
  (k <= k')%Z -> jsnum_lt (Finite k') x = true -> jsnum_lt (Finite k) x = true.
Proof.
  destruct x as [z |]; simpl; [| reflexivity].
  intros H1 H2. apply Z.ltb_lt in H2. apply Z.ltb_lt. lia.
Qed.

(** The running minimum after the loop of [calculateSubjectSimulation]:
    either no capacity was below the start value, or the result is the
    least capacity. *)
Lemma minCanSkip_fold (m : AttendanceMode) (t : Q) (cs : Components) (st : SimLoop) :
  let st' := fold_left (simLoop_step m t) cs st in
  (minCanSkip st' = minCanSkip st /\
   Forall (fun k => jsnum_lt (Finite k) (minCanSkip st) = false)
     (skipCapacities m cs t)) \/
  (exists k, minCanSkip st' = Finite k /\
     In k (skipCapacities m cs t) /\
     Forall (fun k' => (k <= k')%Z) (skipCapacities m cs t) /\
     jsnum_lt (Finite k) (minCanSkip st) = true).
Proof.
  revert st. induction cs as [| entry cs IH]; intros st; cbv zeta.
  - left. split; [reflexivity | constructor].
  - simpl fold_left. simpl skipCapacities.
    set (ke := classesCanSkip m (attended (snd entry)) (conducted (snd entry)) t
                 (tcbr (snd entry))).
    set (st1 := simLoop_step m t st entry).
    assert (Hst1 : minCanSkip st1 =
                   if jsnum_lt (Finite ke) (minCanSkip st) then Finite ke
                   else minCanSkip st) by reflexivity.
    specialize (IH st1). cbv zeta in IH.
    destruct (jsnum_lt (Finite ke) (minCanSkip st)) eqn:Ee.
    + right. destruct IH as [[Heq Hall] | (k & Hk & Hin & Hall & Hlt)].
      * exists ke. rewrite Heq, Hst1.
        split; [reflexivity |]. split; [now left |]. split; [| exact Ee].
        constructor; [lia |].
        rewrite Hst1 in Hall. eapply List.Forall_impl; [| exact Hall].
        intros k' Hk'. simpl in Hk'. apply Z.ltb_ge in Hk'. exact Hk'.
      * exists k. rewrite Hst1 in Hlt. simpl in Hlt. apply Z.ltb_lt in Hlt.
        split; [exact Hk |]. split; [now right |].
        split; [constructor; [lia | exact Hall] |].
        apply (jsnum_lt_trans k ke); [lia | exact Ee].
    + destruct IH as [[Heq Hall] | (k & Hk & Hin & Hall & Hlt)].
      * left. rewrite Heq, Hst1. split; [reflexivity |].
        constructor; [exact Ee |]. now rewrite Hst1 in Hall.
      * right. exists k. rewrite Hst1 in Hlt.
        split; [exact Hk |]. split; [now right |]. split; [| exact Hlt].
        constructor; [| exact Hall].
        destruct (jsnum_lt_Finite ke _ Ee) as (z & Hz & Hle).
        rewrite Hz in Hlt. simpl in Hlt. apply Z.ltb_lt in Hlt. lia.
Qed.

Lemma skipCapacities_range (m : AttendanceMode) (cs : Components) (t : Q) (k : Z) :
  In k (skipCapacities m cs t) -> (0 <= k <= 100)%Z.
Proof.
  unfold skipCapacities. rewrite in_map_iff.
  intros (entry & <- & _). apply classesCanSkip_range.
Qed.

(** C2 (amended): for a subject with a non-empty component mapping and
    every threshold, the subject-level [canSkip] is the minimum of the
    per-component skip capacities over all components, a capacity of 0
    included; it lies between 0 and 100, so the cap at 100 changes
    nothing; and when the threshold is at most 0, where every component
    returns the capped sentinel 100, the subject-level [canSkip] is 100. *)
Theorem subject_canSkip_is_minimum (m : AttendanceMode) (cs : Components) (t : Q) :
  cs <> [] ->
  exists r,
    calculateSubjectSimulation m cs t = SimFull r /\
    In (sr_canSkip r) (skipCapacities m cs t) /\
    Forall (fun k => (sr_canSkip r <= k)%Z) (skipCapacities m cs t) /\
    (0 <= sr_canSkip r <= 100)%Z /\
    (t <= 0 -> sr_canSkip r = 100%Z).
Proof.
  intros Hne. unfold calculateSubjectSimulation.
  rewrite (length_eqb_nonempty cs Hne).
  eexists. split; [reflexivity |]. cbn [sr_canSkip].
  pose proof (minCanSkip_fold m t cs simLoop_init) as H. cbv zeta in H.
  destruct H as [[_ Hall] | (k & Hk & Hin & Hall & _)].
  - exfalso. destruct cs as [| entry cs]; [congruence |].
    simpl in Hall. inversion Hall as [| ? ? Hhd _]. discriminate Hhd.
  - rewrite Hk. pose proof (skipCapacities_range m cs t k Hin) as Hr.
    replace (Z.min k 100) with k by lia.
    repeat split; try assumption; try lia.
    intros Ht. unfold skipCapacities in Hin. apply in_map_iff in Hin.
    destruct Hin as (entry & <- & _). now apply classesCanSkip_threshold_nonpos.
Qed.

Lemma subject_canSkip_is_minimum_witness :
  exists r,
    calculateSubjectSimulation ERP
      [("L"%string, mkComponent 50 40 0); ("P"%string, mkComponent 10 5 0)] 75 =
      SimFull r /\
    In (sr_canSkip r) [3; 0]%Z /\
    Forall (fun k => (sr_canSkip r <= k)%Z) [3; 0]%Z.
Proof.
  destruct (subject_canSkip_is_minimum ERP
              [("L"%string, mkComponent 50 40 0); ("P"%string, mkComponent 10 5 0)] 75)
    as (r & Hr & Hin & Hall & _); [discriminate |].
  exists r. split; [exact Hr |]. split; [exact Hin | exact Hall].
Defined.

(** C2 (as stated): with a lecture component at 40 of 50 and a practical
    component at 5 of 10, threshold 75, the per-component capacities are
    3 and 0; the minimum positive capacity is 3 but the subject-level
    [canSkip] is 0.  And at threshold 0 a component is in the unbounded
    case (sentinel 100), yet the subject-level [canSkip] is 100, not 0. *)
Lemma subject_canSkip_not_minimum_positive :
  skipCapacities ERP
    [("L"%string, mkComponent 50 40 0); ("P"%string, mkComponent 10 5 0)] 75 = [3; 0]%Z /\
  spec_minPositiveSkip ERP
    [("L"%string, mkComponent 50 40 0); ("P"%string, mkComponent 10 5 0)] 75 = Some 3%Z /\
  sim_canSkip
    (calculateSubjectSimulation ERP
       [("L"%string, mkComponent 50 40 0); ("P"%string, mkComponent 10 5 0)] 75) = 0%Z /\
  Some (sim_canSkip
    (calculateSubjectSimulation ERP
       [("L"%string, mkComponent 50 40 0); ("P"%string, mkComponent 10 5 0)] 75)) <>
  spec_minPositiveSkip ERP
    [("L"%string, mkComponent 50 40 0); ("P"%string, mkComponent 10 5 0)] 75 /\
  skipCapacities ERP [("L"%string, mkComponent 50 40 0)] 0 = [100]%Z /\
  sim_canSkip
    (calculateSubjectSimulation ERP [("L"%string, mkComponent 50 40 0)] 0) = 100%Z.
Proof.
  repeat split; try reflexivity. discriminate.
Qed.

(** ** The subject most at risk *)

Lemma belowLowest_true (s : ProcessedSubject) (lowest : Q) :
  belowLowest s lowest = true ->
  exists p, ps_percentage s = Some p /\ p < lowest.
Proof.
  unfold belowLowest. destruct (ps_percentage s) as [p |]; [| discriminate].
  intros H. apply Qltb_lt in H. now exists p.
Qed.

Lemma belowLowest_false (s : ProcessedSubject) (lowest : Q) :
  belowLowest s lowest = false ->
  forall p, ps_percentage s = Some p -> lowest <= p.
Proof.
  unfold belowLowest. intros H p Hp. rewrite Hp in H. now apply Qltb_ge in H.
Qed.

(** The scan of [calculateAggregateStats] from any loop state: either
    nothing in the list is below the running lowest percentage and the
    candidate is kept, or the candidate becomes the first element of the
    list that has the lowest percentage. *)
Lemma statsLoop_scan (l : list ProcessedSubject) (st : StatsLoop) :
  let st' := fold_left statsLoop_step l st in
  (sl_mostAtRisk st' = sl_mostAtRisk st /\
   lowestPercentage st' = lowestPercentage st /\
   forall x q, In x l -> ps_percentage x = Some q -> lowestPercentage st <= q) \/
  (exists l1 s l2 p,
     l = l1 ++ s :: l2 /\
     ps_percentage s = Some p /\
     sl_mostAtRisk st' = Some s /\
     lowestPercentage st' = p /\
     p < lowestPercentage st /\
     (forall x q, In x l1 -> ps_percentage x = Some q -> p < q) /\
     (forall x q, In x l2 -> ps_percentage x = Some q -> p <= q)).
Proof.
  revert st. induction l as [| x l IH]; intros st; cbv zeta.
  - left. repeat split. intros ? ? [].
  - simpl fold_left. set (st1 := statsLoop_step st x).
    specialize (IH st1). cbv zeta in IH.
    destruct (belowLowest x (lowestPercentage st)) eqn:Eb.
    + destruct (belowLowest_true _ _ Eb) as (px & Hpx & Hlt).
      assert (Hm : sl_mostAtRisk st1 = Some x)
        by (unfold st1, statsLoop_step; simpl; now rewrite Eb).
      assert (Hl : lowestPercentage st1 = px)
        by (unfold st1, statsLoop_step; simpl; now rewrite Eb, Hpx).
      right. destruct IH as [(Hm' & Hl' & Hall) | (l1 & s & l2 & p & IHs)].
      * exists [], x, l, px. rewrite Hm', Hl', Hm, Hl.
        repeat split; try assumption; try reflexivity.
        -- intros ? ? [].
        -- intros y q Hy Hq. rewrite Hl in Hall. now apply (Hall y).
      * destruct IHs as (-> & Hp & Hs & Hlow & Hplt & H1 & H2).
        rewrite Hl in Hplt.
        exists (x :: l1), s, l2, p.
        repeat split; try assumption; try reflexivity; [lra |].
        intros y q [<- | Hy] Hq; [| now apply (H1 y)].
        rewrite Hpx in Hq. injection Hq as <-. exact Hplt.
    + assert (Hm : sl_mostAtRisk st1 = sl_mostAtRisk st)
        by (unfold st1, statsLoop_step; simpl; now rewrite Eb).
      assert (Hl : lowestPercentage st1 = lowestPercentage st)
        by (unfold st1, statsLoop_step; simpl; now rewrite Eb).
      pose proof (belowLowest_false _ _ Eb) as Hx.
      destruct IH as [(Hm' & Hl' & Hall) | (l1 & s & l2 & p & IHs)].
      * left. rewrite Hm', Hl', Hm, Hl.
        repeat split. intros y q [<- | Hy] Hq; [now apply Hx |].
        rewrite Hl in Hall. now apply (Hall y).
      * right. destruct IHs as (-> & Hp & Hs & Hlow & Hplt & H1 & H2).
        rewrite Hl in Hplt.
        exists (x :: l1), s, l2, p.
        repeat split; try assumption; try reflexivity.
        intros y q [<- | Hy] Hq; [| now apply (H1 y)].
        specialize (Hx q Hq). lra.
Qed.

Lemma mostAtRisk_fold (subjects : list ProcessedSubject) (t : Q) :
  mostAtRisk (calculateAggregateStats subjects t) =
  sl_mostAtRisk (fold_left statsLoop_step subjects statsLoop_init).
Proof.
  unfold calculateAggregateStats. destruct subjects; reflexivity.
Qed.

(** C3 (amended): [calculateAggregateStats] returns as [mostAtRisk] the
    first subject, in input order, that has the lowest percentage,
    provided that percentage is below 100; [mostAtRisk] is null exactly
    when no subject has a percentage below 100, which includes the empty
    list.  (A subject without a percentage field never takes part.) *)
Theorem mostAtRisk_first_lowest_below_100 (subjects : list ProcessedSubject) (t : Q) :
  (mostAtRisk (calculateAggregateStats subjects t) = None <->
   forall x q, In x subjects -> ps_percentage x = Some q -> 100 <= q) /\
  (forall s, mostAtRisk (calculateAggregateStats subjects t) = Some s ->
   exists l1 l2 p,
     subjects = l1 ++ s :: l2 /\
     ps_percentage s = Some p /\
     p < 100 /\
     (forall x q, In x l1 -> ps_percentage x = Some q -> p < q) /\
     (forall x q, In x l2 -> ps_percentage x = Some q -> p <= q)).
Proof.
  rewrite mostAtRisk_fold.
  pose proof (statsLoop_scan subjects statsLoop_init) as H. cbv zeta in H.
  change (sl_mostAtRisk statsLoop_init) with (@None ProcessedSubject) in H.
  change (lowestPercentage statsLoop_init) with 100 in H.
  destruct H as [(Hm & _ & Hall) | (l1 & s & l2 & p & Hl & Hp & Hs & _ & Hlt & H1 & H2)].
  - rewrite Hm. split; [split; [intros _; exact Hall | reflexivity] | discriminate].
  - rewrite Hs. split.
    + split; [discriminate |]. intros Hall. exfalso.
      assert (Hin : In s subjects) by (rewrite Hl; apply in_elt).
      specialize (Hall s p Hin Hp). lra.
    + intros s' Hs'. injection Hs' as <-.
      exists l1, l2, p. repeat split; assumption.
Qed.

Lemma mostAtRisk_first_lowest_below_100_witness :
  processAllSubjects ERP sampleRaw 75 =
    [processSubject ERP 75 sampleMaths; processSubject ERP 75 samplePhysics;
     processSubject ERP 75 sampleChemistry] /\
  exists l1 l2 p,
    processAllSubjects ERP sampleRaw 75 =
      l1 ++ processSubject ERP 75 samplePhysics :: l2 /\
    ps_percentage (processSubject ERP 75 samplePhysics) = Some p /\
    p < 100 /\
    (forall x q, In x l1 -> ps_percentage x = Some q -> p < q) /\
    (forall x q, In x l2 -> ps_percentage x = Some q -> p <= q).
Proof.
  split; [reflexivity |].
  apply (proj2 (mostAtRisk_first_lowest_below_100
                  (processAllSubjects ERP sampleRaw 75) 75)).
  vm_compute. reflexivity.
Defined.

(** C3 (as stated): the list of processed subjects holding the one
    subject "English", attended 10 of 10, is not empty and its lowest
    percentage is 100, yet [mostAtRisk] is null. *)
Lemma mostAtRisk_null_on_nonempty_list :
  processAllSubjects ERP
    (Some (mkRawData (Some [("EN101"%string, sampleEnglish)]))) 75 =
    [processSubject ERP 75 sampleEnglish] /\
  [processSubject ERP 75 sampleEnglish] <> [] /\
  (exists p, ps_percentage (processSubject ERP 75 sampleEnglish) = Some p /\ p == 100) /\
  mostAtRisk (calculateAggregateStats [processSubject ERP 75 sampleEnglish] 75) = None.
Proof.
  split; [reflexivity |]. split; [discriminate |]. split; [| reflexivity].
  eexists. split; [reflexivity |]. reflexivity.
Qed.

(** ** Sorting leaves its argument alone *)

Lemma sort_insert_Permutation {A : Type} (cmp : A -> A -> option Q) (x : A)
    (l : list A) :
  Permutation (x :: l) (sort_insert cmp x l).
Proof.
  induction l as [| y l IH]; simpl; [reflexivity |].
  destruct (Qle_bool _ 0); [reflexivity |].
  rewrite perm_swap. now constructor.
Qed.

Lemma array_sort_Permutation {A : Type} (cmp : A -> A -> option Q) (l : list A) :
  Permutation l (array_sort cmp l).
Proof.
  induction l as [| x l IH]; simpl; [reflexivity |].
  rewrite <- sort_insert_Permutation. now constructor.
Qed.

(** C10: for every allocated array of processed subjects and every sort
    key, known, unknown or omitted, [sortSubjects] returns a reference that was not
    allocated before the call (so it differs from the argument), the
    array behind the argument holds the same elements in the same order
    after the call, no other array of the heap changes, and the new array
    is a rearrangement of the input's elements. *)
Theorem sortSubjects_fresh_and_frame (localeCompare : string -> string -> Z)
    (h : Heap) (subjects : loc) (sortBy : option string)
    (elems : list ProcessedSubject) :
  h !! subjects = Some elems ->
  exists (sorted : loc) (h' : Heap),
    sortSubjects localeCompare h subjects sortBy = Some (sorted, h') /\
    h !! sorted = None /\
    sorted <> subjects /\
    h' !! subjects = Some elems /\
    (forall l : loc, l <> sorted -> h' !! l = h !! l) /\
    exists out, h' !! sorted = Some out /\ Permutation elems out.
Proof.
  intros Hs. unfold sortSubjects. cbv zeta. rewrite Hs.
  set (sorted := fresh (dom h)).
  assert (Hfresh : h !! sorted = None)
    by (apply not_elem_of_dom; apply is_fresh).
  assert (Hne : sorted <> subjects) by congruence.
  eexists _, _. split; [reflexivity |].
  split; [exact Hfresh |]. split; [exact Hne |].
  split; [| split].
  - rewrite lookup_alter_ne, lookup_insert_ne by exact Hne. exact Hs.
  - intros l Hl. rewrite lookup_alter_ne, lookup_insert_ne by congruence.
    reflexivity.
  - eexists. rewrite lookup_alter_eq, lookup_insert_eq. split; [reflexivity |].
    apply array_sort_Permutation.
Qed.

Lemma sortSubjects_fresh_and_frame_witness :
  exists (sorted : loc) (h' : Heap),
    sortSubjects (fun _ _ => 0%Z)
      {[ 1%positive := processAllSubjects ERP sampleRaw 75 ]} 1%positive
      (Some "percentage"%string) =
      Some (sorted, h') /\
    h' !! 1%positive = Some (processAllSubjects ERP sampleRaw 75).
Proof.
  destruct (sortSubjects_fresh_and_frame (fun _ _ => 0%Z)
              {[ 1%positive := processAllSubjects ERP sampleRaw 75 ]}
              1%positive (Some "percentage"%string)
              (processAllSubjects ERP sampleRaw 75))
    as (sorted & h' & Hcall & _ & _ & Hkeep & _).
  - apply lookup_singleton_eq.
  - exists sorted, h'. split; [exact Hcall | exact Hkeep].
Defined.

(** ** Ranges *)

Lemma classesNeeded_nonneg (m : AttendanceMode) (a c tc : Z) (t : Q) :
  jsnum_nonneg (classesNeededToReachThreshold m a c t tc).
Proof.
  unfold classesNeededToReachThreshold. cbv zeta.
  destruct (Qle_bool t _); [simpl; lia |].
  destruct (Qle_bool 100 t).
  - destruct (_ <? _)%Z; simpl; [exact I | lia].
  - destruct (Qle_bool _ 0); simpl; [exact I | lia].
Qed.

(** One more class conducted and missed never raises the percentage. *)
Lemma componentPercentage_miss_le (m : AttendanceMode) (a c tc : Z) :
  (0 <= getEffectiveAttended m a tc)%Z -> (0 <= c)%Z ->
  calculateComponentPercentage m a (c + 1) tc <= calculateComponentPercentage m a c tc.
Proof.
  intros He Hc.
  destruct (Z.eq_dec c 0%Z) as [-> | Hne].
  - rewrite (componentPercentage_noData m a 0 tc) by lia.
    apply componentPercentage_inRange.
  - unfold calculateComponentPercentage.
    destruct (c + 1 <=? 0)%Z eqn:E1; [apply Z.leb_le in E1; lia |].
    destruct (c <=? 0)%Z eqn:E0; [apply Z.leb_le in E0; lia |]. cbv zeta.
    set (e := inject_Z (getEffectiveAttended m a tc)).
    assert (He' : 0 <= e) by (apply inject_Z_nonneg; exact He).
    assert (Hc0 : 0 < inject_Z c) by (apply inject_Z_pos; lia).
    assert (Hc1 : 0 < inject_Z (c + 1)) by (apply inject_Z_pos; lia).
    assert (Hle : e / inject_Z (c + 1) * 100 <= e / inject_Z c * 100).
    { apply ratio_le; [exact Hc0 |].
      assert (Hy : e == e / inject_Z (c + 1) * inject_Z (c + 1)) by (field; lra).
      assert (Hy0 : 0 <= e / inject_Z (c + 1)) by (apply Qle_shift_div_l; lra).
      set (y := e / inject_Z (c + 1)) in *. clearbody y.
      rewrite inject_Z_plus in Hy. change (inject_Z 1) with 1 in Hy.
      rewrite Hy. nra. }
    qcases; lra.
Qed.

Lemma simulateMiss_inRange (m : AttendanceMode) (a c tc : Z) (t : Q) :
  (0 <= getEffectiveAttended m a tc)%Z -> (0 <= c)%Z ->
  nextClassInRange (simulateMissNextClass m a c t tc).
Proof.
  intros He Hc. unfold nextClassInRange, simulateMissNextClass. simpl.
  pose proof (componentPercentage_miss_le m a c tc He Hc).
  repeat split; try apply componentPercentage_inRange. lra.
Qed.

Lemma componentDataOf_inRange (m : AttendanceMode) (t : Q) (comp : Component) :
  validComponent comp -> componentDataInRange (componentDataOf m t comp).
Proof.
  intros [[Ha Hac] [Ht Htc]].
  assert (He : (0 <= getEffectiveAttended m (attended comp) (tcbr comp))%Z)
    by (apply getEffectiveAttended_nonneg; lia).
  unfold componentDataInRange, componentDataOf. simpl.
  split; [apply componentPercentage_inRange |].
  split; [apply classesNeeded_nonneg |].
  split; [apply classesCanSkip_range |].
  split; [apply simulateMiss_inRange; [exact He | lia] |].
  repeat split; lia.
Qed.

Lemma jsnum_add_nonneg (x y : jsnum) :
  jsnum_nonneg x -> jsnum_nonneg y -> jsnum_nonneg (jsnum_add x y).
Proof. destruct x, y; simpl; try exact (fun _ _ => I). lia. Qed.

Lemma simLoop_step_inRange (m : AttendanceMode) (t : Q) (st : SimLoop)
    (entry : string * Component) :
  validComponent (snd entry) -> simLoopInRange st ->
  simLoopInRange (simLoop_step m t st entry).
Proof.
  intros Hv (Hd & Hw & Hn & Hk).
  pose proof (componentDataOf_inRange m t (snd entry) Hv) as Hcd.
  unfold simLoopInRange, simLoop_step.
  cbn [componentData weakestPercentage totalClassesNeeded minCanSkip fst snd].
  set (data := componentDataOf m t (snd entry)) in *.
  destruct Hcd as (Hp & Hneed & Hskip & _).
  split; [| split; [| split]].
  - apply Forall_app. split; [exact Hd |].
    constructor; [| constructor].
    unfold data. now apply componentDataOf_inRange.
  - destruct (Qltb _ _); [exact Hp | exact Hw].
  - destruct (jsnum_pos _); [| exact Hn].
    apply jsnum_add_nonneg; [exact Hn | exact Hneed].
  - destruct (jsnum_lt _ _); [exact Hskip | exact Hk].
Qed.

Lemma simLoop_fold_inRange (m : AttendanceMode) (t : Q) (cs : Components)
    (st : SimLoop) :
  validComponents cs -> simLoopInRange st ->
  simLoopInRange (fold_left (simLoop_step m t) cs st).
Proof.
  intros Hv. revert st.
  induction Hv as [| entry cs He _ IH]; intros st Hst; simpl; [exact Hst |].
  apply IH. now apply simLoop_step_inRange.
Qed.

Lemma subjectPercentage_fold_bounds (m : AttendanceMode) (cs : Components)
    (acc : Q * Z) :
  (0 <= snd acc)%Z ->
  0 <= fst acc /\ fst acc <= 100 * inject_Z (snd acc) ->
  let acc' := fold_left (subjectPercentage_step m) cs acc in
  (0 <= snd acc')%Z /\ 0 <= fst acc' /\ fst acc' <= 100 * inject_Z (snd acc').
Proof.
  revert acc. induction cs as [| entry cs IH]; intros acc Hn Hb; cbv zeta.
  - simpl. tauto.
  - simpl fold_left. apply IH.
    + unfold subjectPercentage_step. destruct (0 <? _)%Z; simpl; lia.
    + unfold subjectPercentage_step. destruct (0 <? _)%Z; [| exact Hb]. simpl.
      pose proof (componentPercentage_inRange m (attended (snd entry))
                    (conducted (snd entry)) (tcbr (snd entry))) as [H0 H100].
      rewrite inject_Z_plus. change (inject_Z 1) with 1.
      destruct Hb as [Hb0 Hb100]. split; lra.
Qed.

Lemma subjectPercentage_inRange (m : AttendanceMode) (cs : Components) :
  inRange (calculateSubjectPercentage m cs).
Proof.
  unfold calculateSubjectPercentage.
  destruct (length cs =? 0)%nat; [split; lra |].
  pose proof (subjectPercentage_fold_bounds m cs (0, 0%Z)) as H.
  cbv zeta in H. simpl fst in H. simpl snd in H.
  destruct H as (Hn & H0 & H100); [lia | split; [lra | discriminate] |].
  destruct (fold_left _ cs _) as [total valid]. simpl in *.
  destruct (valid =? 0)%Z eqn:Ev; [split; lra |].
  apply Z.eqb_neq in Ev.
  assert (Hv : 0 < inject_Z valid) by (apply inject_Z_pos; lia).
  split.
  - apply Qle_shift_div_l; [exact Hv | lra].
  - apply Qle_shift_div_r; [exact Hv | exact H100].
Qed.

Lemma simLoop_init_inRange : simLoopInRange simLoop_init.
Proof.
  unfold simLoopInRange, simLoop_init. simpl.
  repeat split; try constructor; try lra; try lia; discriminate.
Qed.

Lemma subjectSimulation_inRange (m : AttendanceMode) (cs : Components) (t : Q) :
  validComponents cs -> simulationInRange (calculateSubjectSimulation m cs t).
Proof.
  intros Hv. unfold calculateSubjectSimulation.
  destruct (length cs =? 0)%nat; [simpl; lia |].
  pose proof (simLoop_fold_inRange m t cs simLoop_init Hv simLoop_init_inRange)
    as (Hd & Hw & Hn & Hk).
  set (st := fold_left (simLoop_step m t) cs simLoop_init) in *.
  unfold simulationInRange, subjectResultInRange. cbv zeta.
  cbn [sr_percentage sr_dangerScore sr_componentData sr_weakestPercentage
       sr_totalClassesNeeded sr_canSkip].
  split; [apply subjectPercentage_inRange |].
  split; [apply dangerScore_nonneg |].
  split; [exact Hd |]. split; [exact Hw |]. split.
  - destruct (totalClassesNeeded st); simpl in *; lia.
  - destruct (minCanSkip st); lia.
Qed.

Lemma totals_fold_bounds (m : AttendanceMode) (cs : Components) (acc : Z * Z * Z) :
  validComponents cs ->
  (0 <= snd (fst acc) <= fst (fst acc))%Z -> (0 <= snd acc)%Z ->
  let acc' := fold_left (totals_step m) cs acc in
  (0 <= snd (fst acc') <= fst (fst acc'))%Z /\ (0 <= snd acc')%Z.
Proof.
  intros Hv. revert acc.
  induction Hv as [| entry cs He _ IH]; intros [[tc ta] te] H1 H2; cbv zeta.
  - simpl. tauto.
  - simpl fold_left. destruct He as [[Ha Hac] [Ht Htc]].
    pose proof (getEffectiveAttended_nonneg m (attended (snd entry))
                  (tcbr (snd entry)) Ha Ht) as Hge.
    apply IH; simpl in *; lia.
Qed.

Lemma processSubject_inRange (m : AttendanceMode) (t : Q) (subject : SubjectRecord) :
  validComponents (components subject) ->
  processedInRange (processSubject m t subject).
Proof.
  intros Hv. unfold processSubject.
  pose proof (totals_fold_bounds m (components subject) (0, 0, 0)%Z Hv) as H.
  cbv zeta in H. simpl fst in H at 1. simpl in H.
  destruct H as [H1 H2]; [lia | lia |].
  destruct (fold_left (totals_step m) (components subject) (0, 0, 0)%Z)
    as [[tc ta] te].
  unfold processedInRange. simpl in *.
  repeat split; try lia. now apply subjectSimulation_inRange.
Qed.

Lemma processSubject_percentage (m : AttendanceMode) (t : Q) (subject : SubjectRecord) :
  components subject <> [] ->
  exists p, ps_percentage (processSubject m t subject) = Some p /\ inRange p.
Proof.
  intros Hne. exists (calculateSubjectPercentage m (components subject)).
  split; [| apply subjectPercentage_inRange].
  unfold processSubject.
  destruct (fold_left (totals_step m) (components subject) (0, 0, 0)%Z)
    as [[tc ta] te].
  unfold ps_percentage. cbn [ps_simulation].
  unfold calculateSubjectSimulation.
  now rewrite (length_eqb_nonempty _ Hne).
Qed.

(** The running sum of [calculateAggregateStats] over subjects that all
    carry a percentage in range. *)
Lemma totalPercentage_fold (l : list ProcessedSubject) (st : StatsLoop) (a : Q) :
  Forall (fun s => exists p, ps_percentage s = Some p /\ inRange p) l ->
  totalPercentage st = Some a ->
  exists a',
    totalPercentage (fold_left statsLoop_step l st) = Some a' /\
    a <= a' /\ a' <= a + 100 * inject_Z (Z.of_nat (length l)).
Proof.
  intros Hl. revert st a.
  induction Hl as [| s l (p & Hp & Hp0 & Hp100) _ IH]; intros st a Ha.
  - exists a. split; [exact Ha |].
    change (inject_Z (Z.of_nat (length (@nil ProcessedSubject)))) with 0.
    split; lra.
  - simpl fold_left.
    destruct (IH (statsLoop_step st s) (a + p)) as (a' & Ha' & Hlo & Hhi).
    { unfold statsLoop_step. cbn [totalPercentage]. now rewrite Ha, Hp. }
    exists a'. split; [exact Ha' |].
    change (length (s :: l)) with (S (length l)).
    rewrite Nat2Z.inj_succ, <- Z.add_1_r, inject_Z_plus.
    change (inject_Z 1) with 1. split; lra.
Qed.

Lemma averageAttendance_inRange (l : list ProcessedSubject) (t : Q) :
  Forall (fun s => exists p, ps_percentage s = Some p /\ inRange p) l ->
  exists avg,
    averageAttendance (calculateAggregateStats l t) = Some avg /\ inRange avg.
Proof.
  intros Hl. unfold calculateAggregateStats.
  destruct (length l =? 0)%nat eqn:E.
  - exists 0. split; [reflexivity | split; lra].
  - apply Nat.eqb_neq in E.
    destruct (totalPercentage_fold l statsLoop_init 0 Hl eq_refl)
      as (a' & Ha' & Hlo & Hhi).
    cbn [averageAttendance]. rewrite Ha'.
    eexists. split; [reflexivity |].
    assert (Hn : 0 < inject_Z (Z.of_nat (length l))) by (apply inject_Z_pos; lia).
    split.
    + apply Qle_shift_div_l; [exact Hn | rewrite Qmult_0_l; exact Hlo].
    + apply Qle_shift_div_r; [exact Hn | lra].
Qed.

(** C7 (amended): for raw data whose components all satisfy
    [0 <= attended <= conducted] and [0 <= tcbr <= conducted], in either
    mode and for every threshold, every processed subject has
    non-negative totals ([totalAbsent] included) and, when it has
    components, percentages in [[0, 100]] (subject, weakest component,
    each component, and the current and new percentage of each
    miss-next-class simulation), a non-negative [percentageDrop], danger
    score, classes needed and skip capacity; the component and subject
    percentages are in [[0, 100]] on any input; and when every subject
    has at least one component the aggregate mean is a number in
    [[0, 100]]. *)
Theorem engine_values_in_range (m : AttendanceMode) (rawData : option RawData) (t : Q) :
  validRaw rawData ->
  Forall processedInRange (processAllSubjects m rawData t) /\
  (forall a c tc, inRange (calculateComponentPercentage m a c tc)) /\
  (forall cs, inRange (calculateSubjectPercentage m cs)) /\
  (nonEmptyRaw rawData ->
   exists avg,
     averageAttendance
       (calculateAggregateStats (processAllSubjects m rawData t) t) = Some avg /\
     inRange avg).
Proof.
  intros Hv.
  split; [| split; [apply componentPercentage_inRange |
                    split; [apply subjectPercentage_inRange |]]].
  - unfold validRaw, subjectsOf in Hv. unfold processAllSubjects.
    destruct rawData as [[[subs |]] |]; try constructor.
    simpl in Hv. induction Hv as [| entry subs He _ IH]; simpl; constructor.
    + now apply processSubject_inRange.
    + exact IH.
  - intros Hne. apply averageAttendance_inRange.
    unfold nonEmptyRaw, subjectsOf in Hne. unfold processAllSubjects.
    destruct rawData as [[[subs |]] |]; try constructor.
    simpl in Hne. clear Hv.
    induction Hne as [| entry subs He _ IH]; simpl; constructor.
    + now apply processSubject_percentage.
    + exact IH.
Qed.

Lemma engine_values_in_range_witness :
  Forall processedInRange (processAllSubjects TCBR_CORRECTED sampleRaw 75) /\
  exists avg,
    averageAttendance
      (calculateAggregateStats (processAllSubjects TCBR_CORRECTED sampleRaw 75) 75) =
      Some avg /\
    inRange avg.
Proof.
  destruct (engine_values_in_range TCBR_CORRECTED sampleRaw 75)
    as (Hall & _ & _ & Havg).
  - repeat constructor; simpl; lia.
  - split; [exact Hall |]. apply Havg.
    repeat constructor; discriminate.
Defined.

(** C7 (as stated): raw data holding one subject with an empty component
    mapping satisfies the conditions on the counts, yet the processed
    subject has no percentage and the aggregate mean is [NaN], not a
    number in [[0, 100]]. *)
Lemma averageAttendance_NaN_for_empty_components :
  validRaw (Some (mkRawData (Some
     [("XX000"%string, mkSubjectRecord "XX000" "Empty" [])]))) /\
  averageAttendance
    (calculateAggregateStats
       (processAllSubjects ERP
          (Some (mkRawData (Some
             [("XX000"%string, mkSubjectRecord "XX000" "Empty" [])]))) 75) 75) = None /\
  ~ (exists avg,
       averageAttendance
         (calculateAggregateStats
            (processAllSubjects ERP
               (Some (mkRawData (Some
                  [("XX000"%string, mkSubjectRecord "XX000" "Empty" [])]))) 75) 75) =
         Some avg /\
       inRange avg).
Proof.
  split; [repeat constructor |]. split; [reflexivity |].
  intros (avg & H & _). discriminate H.
Qed.

(** * Further properties of the calculator *)

(** ** Status and danger score *)

(** X1: for an integer threshold, the status and the danger score agree
    on the three bands: a subject is critical exactly when its
    percentage is below the threshold, and then its score is at least
    50; a borderline subject has a score in [5, 10]; a safe subject has
    a score in [0, 5]. *)
Theorem status_danger_bands (p : Q) (k : Z) :
  (getStatus p (inject_Z k) = critical <-> p < inject_Z k) /\
  (getStatus p (inject_Z k) = critical ->
     50 <= calculateDangerScore p (inject_Z k)) /\
  (getStatus p (inject_Z k) = borderline ->
     5 <= calculateDangerScore p (inject_Z k) /\
     calculateDangerScore p (inject_Z k) <= 10) /\
  (getStatus p (inject_Z k) = safe ->
     0 <= calculateDangerScore p (inject_Z k) /\
     calculateDangerScore p (inject_Z k) <= 5).
Proof.
  unfold getStatus, calculateDangerScore, Math_max.
  qcases; repeat split; intros; try discriminate; try lra.
Qed.

(** X2: the danger score never increases with the percentage. *)
Theorem dangerScore_antitone (p q t : Q) :
  p <= q -> calculateDangerScore q t <= calculateDangerScore p t.
Proof.
  intros H. unfold calculateDangerScore, Math_max. qcases; lra.
Qed.

Lemma dangerScore_antitone_witness :
  calculateDangerScore 80 75 <= calculateDangerScore 60 75.
Proof.
  apply (dangerScore_antitone 60 80 75). discriminate.
Defined.

(** ** The impossible sentinel *)

(** X3: [classesNeededToReachThreshold] returns [Infinity] exactly when
    the current percentage is below a threshold of at least 100 and the
    effective attended count is below [conducted]; for a threshold below
    100 the result is always a finite non-negative integer. *)
Theorem classesNeeded_Infinity_iff (m : AttendanceMode) (a c tc : Z) (t : Q) :
  (classesNeededToReachThreshold m a c t tc = Infinity <->
   calculateComponentPercentage m a c tc < t /\ 100 <= t /\
   (getEffectiveAttended m a tc < c)%Z) /\
  (t < 100 ->
   exists x, classesNeededToReachThreshold m a c t tc = Finite x /\ (0 <= x)%Z).
Proof.
  unfold classesNeededToReachThreshold. cbv zeta. split.
  - destruct (Qle_bool t _) eqn:Ep;
      [apply Qle_bool_iff in Ep | apply Qle_bool_gt in Ep].
    { split; [discriminate | intros (H & _); lra]. }
    destruct (Qle_bool 100 t) eqn:E100;
      [apply Qle_bool_iff in E100 | apply Qle_bool_gt in E100].
    + destruct (_ <? c)%Z eqn:El; [apply Z.ltb_lt in El | apply Z.ltb_ge in El].
      * split; [intros _; repeat split; assumption | reflexivity].
      * split; [discriminate | intros (_ & _ & H); lia].
    + assert (Hd : Qle_bool (1 - t / 100) 0 = false)
        by (apply Qle_bool_gt; rewrite div_100; lra).
      rewrite Hd. split; [discriminate | intros (_ & H & _); lra].
  - intros Ht.
    destruct (Qle_bool t _); [exists 0%Z; split; [reflexivity | lia] |].
    assert (E100 : Qle_bool 100 t = false) by (apply Qle_bool_gt; exact Ht).
    assert (Hd : Qle_bool (1 - t / 100) 0 = false)
      by (apply Qle_bool_gt; rewrite div_100; lra).
    rewrite E100, Hd. eexists. split; [reflexivity | lia].
Qed.

(** ** Needing classes and being able to skip exclude each other *)

(** X4: for every input, a component that needs classes (a result other
    than 0, the sentinel included) has no skip capacity, and a component
    with a positive skip capacity needs no class. *)
Theorem needed_and_skip_exclusive (m : AttendanceMode) (a c tc : Z) (t : Q) :
  (classesNeededToReachThreshold m a c t tc <> Finite 0 ->
   classesCanSkip m a c t tc = 0%Z) /\
  ((0 < classesCanSkip m a c t tc)%Z ->
   classesNeededToReachThreshold m a c t tc = Finite 0).
Proof.
  assert (Hkey : calculateComponentPercentage m a c tc < t ->
                 classesCanSkip m a c t tc = 0%Z).
  { intros H. unfold classesCanSkip. cbv zeta. apply Qltb_lt in H. now rewrite H. }
  split.
  - intros Hn. apply Hkey. apply Qnot_le_lt. intros Hle.
    apply Hn. now apply classesNeeded_at_threshold.
  - intros Hs. apply classesNeeded_at_threshold.
    apply Qnot_lt_le. intros Hlt. rewrite (Hkey Hlt) in Hs. lia.
Qed.

(** ** The projections against their inequalities *)












(** ** The miss-next-class simulation *)

(** X7: the flags of [simulateMissNextClass] agree with the two
    projections: a component flagged as already below the threshold has
    no skip capacity and is not flagged as about to fall; a component
    flagged as about to fall needs no class now, and its percentage
    after the missed class is below the threshold; and a component not
    flagged as already below needs no class. *)
Theorem missNextClass_flags_consistent (m : AttendanceMode) (a c tc : Z) (t : Q) :
  (isAlreadyBelowThreshold (simulateMissNextClass m a c t tc) = true ->
     classesCanSkip m a c t tc = 0%Z /\
     wouldFallBelowThreshold (simulateMissNextClass m a c t tc) = false) /\
  (wouldFallBelowThreshold (simulateMissNextClass m a c t tc) = true ->
     classesNeededToReachThreshold m a c t tc = Finite 0 /\
     newPercentage (simulateMissNextClass m a c t tc) < t) /\
  (isAlreadyBelowThreshold (simulateMissNextClass m a c t tc) = false ->
     classesNeededToReachThreshold m a c t tc = Finite 0).
Proof.
  unfold simulateMissNextClass.
  cbn [wouldFallBelowThreshold isAlreadyBelowThreshold newPercentage].
  split; [| split].
  - intros H. split.
    + unfold classesCanSkip. cbv zeta. now rewrite H.
    + apply Qltb_lt in H. apply andb_false_iff. left. now apply Qle_bool_gt.
  - intros H. apply andb_true_iff in H. destruct H as [Hge Hnew].
    apply Qle_bool_iff in Hge. apply Qltb_lt in Hnew.
    split; [now apply classesNeeded_at_threshold | exact Hnew].
  - intros H. apply Qltb_ge in H. now apply classesNeeded_at_threshold.
Qed.

(** ** Subject-level totals of classes needed *)

Lemma totalNeeded_step (m : AttendanceMode) (t : Q) (st : SimLoop)
    (entry : string * Component) :
  totalClassesNeeded (simLoop_step m t st entry) =
  if jsnum_pos (classesNeededOf m t (snd entry))
  then jsnum_add (totalClassesNeeded st) (classesNeededOf m t (snd entry))
  else totalClassesNeeded st.
Proof. reflexivity. Qed.

Lemma totalNeeded_fold_Infinity (m : AttendanceMode) (t : Q) (cs : Components)
    (st : SimLoop) :
  totalClassesNeeded st = Infinity ->
  totalClassesNeeded (fold_left (simLoop_step m t) cs st) = Infinity.
Proof.
  revert st. induction cs as [| entry cs IH]; intros st H; simpl; [exact H |].
  apply IH. rewrite totalNeeded_step, H. now destruct (jsnum_pos _).
Qed.

Lemma totalNeeded_fold_impossible (m : AttendanceMode) (t : Q) (cs : Components)
    (st : SimLoop) :
  (exists entry, In entry cs /\ classesNeededOf m t (snd entry) = Infinity) ->
  totalClassesNeeded (fold_left (simLoop_step m t) cs st) = Infinity.
Proof.
  revert st. induction cs as [| entry cs IH]; intros st (e & Hin & He).
  - destruct Hin.
  - simpl fold_left. destruct Hin as [<- | Hin].
    + apply totalNeeded_fold_Infinity. rewrite totalNeeded_step, He. simpl.
      now destruct (totalClassesNeeded st).
    + apply IH. now exists e.
Qed.

Lemma totalNeeded_fold_finite (m : AttendanceMode) (t : Q) (cs : Components)
    (st : SimLoop) (needs : list Z) (s : Z) :
  map (fun entry => classesNeededOf m t (snd entry)) cs = map Finite needs ->
  totalClassesNeeded st = Finite s ->
  totalClassesNeeded (fold_left (simLoop_step m t) cs st) =
  Finite (s + fold_right Z.add 0%Z needs).
Proof.
  revert st needs s.
  induction cs as [| entry cs IH]; intros st needs s Hmap Hst.
  - destruct needs; [| discriminate]. simpl. now rewrite Z.add_0_r.
  - destruct needs as [| n needs]; [discriminate |].
    simpl in Hmap. injection Hmap as Hn Hmap. simpl fold_left.
    pose proof (classesNeeded_nonneg m (attended (snd entry)) (conducted (snd entry))
                  (tcbr (snd entry)) t) as Hnn.
    fold (classesNeededOf m t (snd entry)) in Hnn. rewrite Hn in Hnn. simpl in Hnn.
    rewrite (IH (simLoop_step m t st entry) needs (s + n)%Z Hmap).
    + simpl. f_equal. lia.
    + rewrite totalNeeded_step, Hn, Hst. simpl.
      destruct (0 <? n)%Z eqn:E; [reflexivity | apply Z.ltb_ge in E].
      f_equal. lia.
Qed.

Lemma totalNeeded_fold_nonneg (m : AttendanceMode) (t : Q) (cs : Components)
    (st : SimLoop) :
  jsnum_nonneg (totalClassesNeeded st) ->
  jsnum_nonneg (totalClassesNeeded (fold_left (simLoop_step m t) cs st)).
Proof.
  revert st. induction cs as [| entry cs IH]; intros st Hst; simpl; [exact Hst |].
  apply IH. rewrite totalNeeded_step. destruct (jsnum_pos _); [| exact Hst].
  apply jsnum_add_nonneg; [exact Hst | apply classesNeeded_nonneg].
Qed.

(** X8: for a subject with components, [totalClassesNeeded] lies in
    [[0, 300]]; it is exactly 300 as soon as one component is impossible
    (so the subject-level total is never [Infinity]); and when every
    component has a finite need it is the sum of the needs, capped at
    300. *)
Theorem subject_totalClassesNeeded (m : AttendanceMode) (cs : Components) (t : Q) :
  cs <> [] ->
  exists r,
    calculateSubjectSimulation m cs t = SimFull r /\
    (0 <= sr_totalClassesNeeded r <= 300)%Z /\
    ((exists entry, In entry cs /\ classesNeededOf m t (snd entry) = Infinity) ->
     sr_totalClassesNeeded r = 300%Z) /\
    (forall needs,
       map (fun entry => classesNeededOf m t (snd entry)) cs = map Finite needs ->
       sr_totalClassesNeeded r = Z.min (fold_right Z.add 0%Z needs) 300).
Proof.
  intros Hne. unfold calculateSubjectSimulation.
  rewrite (length_eqb_nonempty cs Hne).
  eexists. split; [reflexivity |]. cbn [sr_totalClassesNeeded].
  split; [| split].
  - assert (H0 : jsnum_nonneg (totalClassesNeeded simLoop_init)) by (simpl; lia).
    pose proof (totalNeeded_fold_nonneg m t cs simLoop_init H0) as Hz.
    destruct (totalClassesNeeded (fold_left _ cs _)) as [z |]; simpl in *; lia.
  - intros Himp. now rewrite (totalNeeded_fold_impossible m t cs simLoop_init Himp).
  - intros needs Hmap.
    now rewrite (totalNeeded_fold_finite m t cs simLoop_init needs 0 Hmap eq_refl).
Qed.

Lemma subject_totalClassesNeeded_witness :
  exists r,
    calculateSubjectSimulation ERP
      [("L"%string, mkComponent 10 8 0); ("P"%string, mkComponent 10 5 0)] 100 =
      SimFull r /\
    sr_totalClassesNeeded r = 300%Z.
Proof.
  destruct (subject_totalClassesNeeded ERP
              [("L"%string, mkComponent 10 8 0); ("P"%string, mkComponent 10 5 0)] 100)
    as (r & Hr & _ & Himp & _); [discriminate |].
  exists r. split; [exact Hr |]. apply Himp.
  exists ("L"%string, mkComponent 10 8 0). split; [now left | reflexivity].
Defined.

(** ** The weakest component *)

Lemma weakest_step (m : AttendanceMode) (t : Q) (st : SimLoop)
    (entry : string * Component) :
  let lower := Qltb (componentPercentageOf m (snd entry)) (weakestPercentage st) in
  weakestComponent (simLoop_step m t st entry) =
    (if lower then Some (fst entry) else weakestComponent st) /\
  weakestPercentage (simLoop_step m t st entry) =
    (if lower then componentPercentageOf m (snd entry) else weakestPercentage st).
Proof. split; reflexivity. Qed.

(** The scan for the weakest component from any loop state. *)
Lemma weakest_scan (m : AttendanceMode) (t : Q) (cs : Components) (st : SimLoop) :
  let st' := fold_left (simLoop_step m t) cs st in
  (weakestComponent st' = weakestComponent st /\
   weakestPercentage st' = weakestPercentage st /\
   forall entry, In entry cs ->
     weakestPercentage st <= componentPercentageOf m (snd entry)) \/
  (exists l1 type comp l2,
     cs = l1 ++ (type, comp) :: l2 /\
     weakestComponent st' = Some type /\
     weakestPercentage st' = componentPercentageOf m comp /\
     componentPercentageOf m comp < weakestPercentage st /\
     (forall entry, In entry l1 ->
        componentPercentageOf m comp < componentPercentageOf m (snd entry)) /\
     (forall entry, In entry l2 ->
        componentPercentageOf m comp <= componentPercentageOf m (snd entry))).
Proof.
  revert st. induction cs as [| entry cs IH]; intros st; cbv zeta.
  - left. repeat split. intros ? [].
  - simpl fold_left. set (st1 := simLoop_step m t st entry).
    destruct (weakest_step m t st entry) as [Hc Hp]. fold st1 in Hc, Hp.
    specialize (IH st1). cbv zeta in IH.
    destruct (Qltb (componentPercentageOf m (snd entry)) (weakestPercentage st))
      eqn:Eb; [apply Qltb_lt in Eb | apply Qltb_ge in Eb].
    + right. destruct IH as [(Hc' & Hp' & Hall) | (l1 & ty & comp & l2 & IHs)].
      * exists [], (fst entry), (snd entry), cs.
        rewrite Hc', Hp', Hc, Hp. rewrite <- surjective_pairing.
        repeat split; try assumption; try reflexivity.
        -- intros ? [].
        -- intros e He. rewrite Hp in Hall. now apply Hall.
      * destruct IHs as (-> & Hty & Hpc & Hlt & H1 & H2). rewrite Hp in Hlt.
        exists (entry :: l1), ty, comp, l2.
        repeat split; try assumption; try reflexivity; [lra |].
        intros e [<- | He]; [exact Hlt | now apply H1].
    + destruct IH as [(Hc' & Hp' & Hall) | (l1 & ty & comp & l2 & IHs)].
      * left. rewrite Hc', Hp', Hc, Hp. repeat split.
        intros e [<- | He]; [exact Eb |]. rewrite Hp in Hall. now apply Hall.
      * right. destruct IHs as (-> & Hty & Hpc & Hlt & H1 & H2). rewrite Hp in Hlt.
        exists (entry :: l1), ty, comp, l2.
        repeat split; try assumption; try reflexivity.
        intros e [<- | He]; [lra | now apply H1].
Qed.

(** X9: for a subject with components, [weakestComponent] is the label of
    the first component, in key order, that has the lowest percentage,
    provided that percentage is below 100, and [weakestPercentage] is
    that percentage; [weakestComponent] is null exactly when every
    component is at 100%. *)
Theorem weakestComponent_first_lowest (m : AttendanceMode) (cs : Components) (t : Q) :
  cs <> [] ->
  exists r,
    calculateSubjectSimulation m cs t = SimFull r /\
    (sr_weakestComponent r = None <->
     forall entry, In entry cs -> 100 <= componentPercentageOf m (snd entry)) /\
    (forall type, sr_weakestComponent r = Some type ->
     exists l1 comp l2,
       cs = l1 ++ (type, comp) :: l2 /\
       sr_weakestPercentage r = componentPercentageOf m comp /\
       componentPercentageOf m comp < 100 /\
       (forall entry, In entry l1 ->
          componentPercentageOf m comp < componentPercentageOf m (snd entry)) /\
       (forall entry, In entry l2 ->
          componentPercentageOf m comp <= componentPercentageOf m (snd entry))).
Proof.
  intros Hne. unfold calculateSubjectSimulation.
  rewrite (length_eqb_nonempty cs Hne).
  eexists. split; [reflexivity |].
  cbn [sr_weakestComponent sr_weakestPercentage].
  pose proof (weakest_scan m t cs simLoop_init) as H. cbv zeta in H.
  change (weakestComponent simLoop_init) with (@None string) in H.
  change (weakestPercentage simLoop_init) with 100 in H.
  destruct H as [(Hc & _ & Hall) | (l1 & ty & comp & l2 & Hl & Hty & Hp & Hlt & H1 & H2)].
  - rewrite Hc. split; [split; [intros _; exact Hall | reflexivity] | discriminate].
  - rewrite Hty. split.
    + split; [discriminate |]. intros Hall. exfalso.
      assert (Hin : In (ty, comp) cs) by (rewrite Hl; apply in_elt).
      specialize (Hall _ Hin). simpl in Hall. lra.
    + intros ty' Hty'. injection Hty' as <-.
      exists l1, comp, l2. repeat split; assumption.
Qed.

Lemma weakestComponent_first_lowest_witness :
  exists r,
    calculateSubjectSimulation ERP
      [("L"%string, mkComponent 10 8 0); ("T"%string, mkComponent 10 5 0);
       ("P"%string, mkComponent 20 10 0)] 75 = SimFull r /\
    sr_weakestComponent r = Some "T"%string.
Proof.
  destruct (weakestComponent_first_lowest ERP
              [("L"%string, mkComponent 10 8 0); ("T"%string, mkComponent 10 5 0);
               ("P"%string, mkComponent 20 10 0)] 75)
    as (r & Hr & _ & _); [discriminate |].
  exists r. split; [exact Hr |].
  vm_compute in Hr. injection Hr as <-. reflexivity.
Defined.

(** ** Component data and totals *)

Lemma componentData_fold (m : AttendanceMode) (t : Q) (cs : Components) (st : SimLoop) :
  componentData (fold_left (simLoop_step m t) cs st) =
  componentData st ++
  map (fun entry => (fst entry, componentDataOf m t (snd entry))) cs.
Proof.
  revert st. induction cs as [| entry cs IH]; intros st.
  - simpl. now rewrite app_nil_r.
  - simpl fold_left. rewrite IH.
    change (componentData (simLoop_step m t st entry))
      with (componentData st ++ [(fst entry, componentDataOf m t (snd entry))]).
    now rewrite <- app_assoc.
Qed.

(** X10: for a subject with components, [componentData] has one entry
    per component, under the same labels in the same order, and each
    entry echoes [conducted], [attended] and [tcbr] unchanged and carries
    the effective attended count of the mode. *)
Theorem componentData_echoes_components (m : AttendanceMode) (cs : Components) (t : Q) :
  cs <> [] ->
  exists r,
    calculateSubjectSimulation m cs t = SimFull r /\
    map fst (sr_componentData r) = map fst cs /\
    Forall2 (fun entry data =>
               cd_conducted (snd data) = conducted (snd entry) /\
               cd_attended (snd data) = attended (snd entry) /\
               cd_tcbr (snd data) = tcbr (snd entry) /\
               cd_effectiveAttended (snd data) =
                 getEffectiveAttended m (attended (snd entry)) (tcbr (snd entry)) /\
               cd_percentage (snd data) = componentPercentageOf m (snd entry))
      cs (sr_componentData r).
Proof.
  intros Hne. unfold calculateSubjectSimulation.
  rewrite (length_eqb_nonempty cs Hne).
  eexists. split; [reflexivity |]. cbn [sr_componentData].
  rewrite componentData_fold. cbn [componentData simLoop_init app].
  clear Hne. split.
  - rewrite map_map. reflexivity.
  - induction cs as [| entry cs IH]; simpl; constructor; [| exact IH].
    repeat split.
Qed.

Lemma componentData_echoes_components_witness :
  exists r,
    calculateSubjectSimulation TCBR_CORRECTED
      [("L"%string, mkComponent 50 30 5); ("P"%string, mkComponent 10 5 0)] 75 =
      SimFull r /\
    map fst (sr_componentData r) = ["L"%string; "P"%string].
Proof.
  destruct (componentData_echoes_components TCBR_CORRECTED
              [("L"%string, mkComponent 50 30 5); ("P"%string, mkComponent 10 5 0)] 75)
    as (r & Hr & Hkeys & _); [discriminate |].
  exists r. split; [exact Hr | exact Hkeys].
Defined.

Lemma totals_fold (m : AttendanceMode) (cs : Components) (tc ta te : Z) :
  fold_left (totals_step m) cs (tc, ta, te) =
  ((tc + sumOf conducted cs)%Z, (ta + sumOf attended cs)%Z,
   (te + sumOf (fun comp => getEffectiveAttended m (attended comp) (tcbr comp)) cs)%Z).
Proof.
  revert tc ta te. induction cs as [| entry cs IH]; intros tc ta te.
  - unfold sumOf. simpl. now rewrite !Z.add_0_r.
  - simpl fold_left.
    change (totals_step m (tc, ta, te) entry)
      with ((tc + conducted (snd entry))%Z, (ta + attended (snd entry))%Z,
            (te + getEffectiveAttended m (attended (snd entry)) (tcbr (snd entry)))%Z).
    rewrite IH. unfold sumOf. simpl. f_equal; [f_equal |]; lia.
Qed.

Lemma sumOf_effective (m : AttendanceMode) (cs : Components) :
  sumOf (fun comp => getEffectiveAttended m (attended comp) (tcbr comp)) cs =
  match m with
  | ERP => sumOf attended cs
  | TCBR_CORRECTED => (sumOf attended cs + sumOf tcbr cs)%Z
  end.
Proof.
  unfold sumOf. induction cs as [| entry cs IH]; simpl.
  - now destruct m.
  - rewrite IH. destruct m; simpl; lia.
Qed.

(** X11: the totals of a processed subject are the sums over its
    components: [totalConducted] and [totalAttended] are the sums of
    [conducted] and [attended], [totalAbsent] is their difference, and
    [totalEffectiveAttended] is [totalAttended] in the ERP mode and
    [totalAttended] plus the sum of [tcbr] in the TCBR_CORRECTED mode. *)
Theorem processSubject_totals (m : AttendanceMode) (t : Q) (subject : SubjectRecord) :
  ps_totalConducted (processSubject m t subject) = sumOf conducted (components subject) /\
  ps_totalAttended (processSubject m t subject) = sumOf attended (components subject) /\
  ps_totalAbsent (processSubject m t subject) =
    (sumOf conducted (components subject) - sumOf attended (components subject))%Z /\
  ps_totalEffectiveAttended (processSubject m t subject) =
    match m with
    | ERP => sumOf attended (components subject)
    | TCBR_CORRECTED =>
        (sumOf attended (components subject) + sumOf tcbr (components subject))%Z
    end.
Proof.
  unfold processSubject. rewrite totals_fold. simpl.
  rewrite sumOf_effective. repeat split.
Qed.

(** ** Sorting by a key *)

Section SortByKey.

Context {A : Type} (comparefn : A -> A -> option Q) (key : A -> Q).

Lemma sort_insert_In (x y : A) (l : list A) :
  In y (sort_insert comparefn x l) <-> y = x \/ In y l.
Proof.
  pose proof (sort_insert_Permutation comparefn x l) as Hp. split; intros H.
  - apply (Permutation_in _ (Permutation_sym Hp)) in H.
    destruct H as [-> | H]; [now left | now right].
  - apply (Permutation_in _ Hp). destruct H as [-> | H]; [now left | now right].
Qed.

Lemma array_sort_In (y : A) (l : list A) :
  In y (array_sort comparefn l) <-> In y l.
Proof.
  pose proof (array_sort_Permutation comparefn l) as Hp. split; intros H.
  - now apply (Permutation_in _ (Permutation_sym Hp)).
  - now apply (Permutation_in _ Hp).
Qed.

Lemma sort_insert_sorted (x : A) (l : list A) :
  ordersByKey comparefn key (x :: l) ->
  StronglySorted (fun a b => key a <= key b) l ->
  StronglySorted (fun a b => key a <= key b) (sort_insert comparefn x l).
Proof.
  intros Hord Hs. induction Hs as [| y l Hs IH Hall]; simpl.
  - constructor; constructor.
  - destruct (Qle_bool (SortCompare comparefn x y) 0) eqn:E.
    + apply Qle_bool_iff in E. apply Hord in E; [| now left | right; now left].
      constructor; [now constructor |].
      constructor; [exact E |].
      eapply List.Forall_impl; [| exact Hall]. intros z Hz. simpl in Hz. lra.
    + apply Qle_bool_gt in E.
      assert (Hyx : key y <= key x).
      { apply Qlt_le_weak. apply Qnot_le_lt. intros Hle.
        apply Hord in Hle; [lra | now left | right; now left]. }
      constructor.
      * apply IH. intros u v Hu Hv. apply Hord.
        -- destruct Hu as [-> | Hu]; [now left | right; now right].
        -- destruct Hv as [-> | Hv]; [now left | right; now right].
      * apply List.Forall_forall. intros z Hz. apply sort_insert_In in Hz.
        destruct Hz as [-> | Hz]; [exact Hyx |].
        rewrite List.Forall_forall in Hall. now apply Hall.
Qed.

Lemma array_sort_sorted (l : list A) :
  ordersByKey comparefn key l ->
  StronglySorted (fun a b => key a <= key b) (array_sort comparefn l).
Proof.
  induction l as [| x l IH]; intros Hord; simpl; [constructor |].
  apply sort_insert_sorted.
  - intros u v Hu Hv. apply Hord.
    + destruct Hu as [-> | Hu]; [now left | right; now apply array_sort_In].
    + destruct Hv as [-> | Hv]; [now left | right; now apply array_sort_In].
  - apply IH. intros u v Hu Hv. apply Hord; now right.
Qed.

Lemma sort_insert_stable (k : Q) (x : A) (l : list A) :
  ordersByKey comparefn key (x :: l) ->
  List.filter (fun a => Qeq_bool (key a) k) (sort_insert comparefn x l) =
  List.filter (fun a => Qeq_bool (key a) k) (x :: l).
Proof.
  intros Hord. induction l as [| y l IH]; [reflexivity |].
  simpl sort_insert.
  destruct (Qle_bool (SortCompare comparefn x y) 0) eqn:E; [reflexivity |].
  apply Qle_bool_gt in E.
  assert (Hyx : key y < key x).
  { apply Qnot_le_lt. intros Hle.
    apply Hord in Hle; [lra | now left | right; now left]. }
  assert (IH' : List.filter (fun a => Qeq_bool (key a) k) (sort_insert comparefn x l) =
                List.filter (fun a => Qeq_bool (key a) k) (x :: l)).
  { apply IH. intros u v Hu Hv. apply Hord.
    - destruct Hu as [-> | Hu]; [now left | right; now right].
    - destruct Hv as [-> | Hv]; [now left | right; now right]. }
  simpl List.filter in *. rewrite IH'.
  destruct (Qeq_bool (key x) k) eqn:Ex; [| reflexivity].
  destruct (Qeq_bool (key y) k) eqn:Ey; [| reflexivity].
  apply Qeq_bool_iff in Ex, Ey. lra.
Qed.

Lemma array_sort_stable (k : Q) (l : list A) :
  ordersByKey comparefn key l ->
  List.filter (fun a => Qeq_bool (key a) k) (array_sort comparefn l) =
  List.filter (fun a => Qeq_bool (key a) k) l.
Proof.
  induction l as [| x l IH]; intros Hord; [reflexivity |].
  simpl array_sort. rewrite sort_insert_stable.
  - simpl. rewrite IH; [reflexivity |]. intros u v Hu Hv. apply Hord; now right.
  - intros u v Hu Hv. apply Hord.
    + destruct Hu as [-> | Hu]; [now left | right; now apply array_sort_In].
    + destruct Hv as [-> | Hv]; [now left | right; now apply array_sort_In].
Qed.

End SortByKey.

Lemma sortSubjects_result (localeCompare : string -> string -> Z) (h : Heap)
    (subjects : loc) (sortBy : option string) (elems : list ProcessedSubject) :
  h !! subjects = Some elems ->
  exists (sorted : loc) (h' : Heap),
    sortSubjects localeCompare h subjects sortBy = Some (sorted, h') /\
    h' !! sorted =
      Some (array_sort
              (comparatorFor localeCompare
                 (match sortBy with Some key => key | None => "danger"%string end))
              elems).
Proof.
  intros Hs. unfold sortSubjects. cbv zeta. rewrite Hs.
  eexists _, _. split; [reflexivity |].
  now rewrite lookup_alter_eq, lookup_insert_eq.
Qed.

Lemma byPercentage_orders (elems : list ProcessedSubject) (pct : ProcessedSubject -> Q) :
  (forall s, In s elems -> ps_percentage s = Some (pct s)) ->
  ordersByKey byPercentage pct elems.
Proof.
  intros Hp x y Hx Hy. unfold SortCompare, byPercentage.
  rewrite (Hp x Hx), (Hp y Hy). simpl. split; intros H; lra.
Qed.

Lemma byDanger_orders (elems : list ProcessedSubject) (score : ProcessedSubject -> Q) :
  (forall s, In s elems -> ps_dangerScore s = Some (score s)) ->
  ordersByKey byDanger (fun s => - score s) elems.
Proof.
  intros Hp x y Hx Hy. unfold SortCompare, byDanger.
  rewrite (Hp x Hx), (Hp y Hy). simpl. split; intros H; lra.
Qed.

Lemma comparatorFor_fallback (localeCompare : string -> string -> Z) (key : string) :
  key <> "name"%string -> key <> "percentage"%string ->
  comparatorFor localeCompare key = byDanger.
Proof.
  intros Hn Hp. unfold comparatorFor.
  destruct (String.eqb key "danger"); [reflexivity |].
  apply String.eqb_neq in Hn, Hp. now rewrite Hn, Hp.
Qed.

(** X12: sorting by ['percentage'] an array of subjects that all carry a
    percentage gives an array in ascending order of percentage, and the
    sort is stable: the subjects of any one percentage appear in the
    order they had in the input. *)
Theorem sortSubjects_by_percentage (localeCompare : string -> string -> Z)
    (h : Heap) (subjects : loc) (elems : list ProcessedSubject)
    (pct : ProcessedSubject -> Q) :
  h !! subjects = Some elems ->
  (forall s, In s elems -> ps_percentage s = Some (pct s)) ->
  exists (sorted : loc) (h' : Heap) (out : list ProcessedSubject),
    sortSubjects localeCompare h subjects (Some "percentage"%string) =
      Some (sorted, h') /\
    h' !! sorted = Some out /\
    StronglySorted (fun a b => pct a <= pct b) out /\
    forall k,
      List.filter (fun s => Qeq_bool (pct s) k) out =
      List.filter (fun s => Qeq_bool (pct s) k) elems.
Proof.
  intros Hs Hp.
  destruct (sortSubjects_result localeCompare h subjects
              (Some "percentage"%string) elems Hs) as (sorted & h' & Hcall & Hout).
  exists sorted, h'. eexists. split; [exact Hcall |]. split; [exact Hout |].
  change (comparatorFor localeCompare "percentage") with byPercentage.
  pose proof (byPercentage_orders elems pct Hp) as Hord. split.
  - now apply array_sort_sorted.
  - intros k. now apply array_sort_stable.
Qed.

Lemma sortSubjects_by_percentage_witness :
  exists (sorted : loc) (h' : Heap) (out : list ProcessedSubject),
    sortSubjects (fun _ _ => 0%Z)
      {[ 1%positive := processAllSubjects ERP sampleRaw 75 ]} 1%positive
      (Some "percentage"%string) = Some (sorted, h') /\
    h' !! sorted = Some out /\
    StronglySorted
      (fun a b =>
         calculateSubjectPercentage ERP (ps_components a) <=
         calculateSubjectPercentage ERP (ps_components b)) out.
Proof.
  destruct (sortSubjects_by_percentage (fun _ _ => 0%Z)
              {[ 1%positive := processAllSubjects ERP sampleRaw 75 ]} 1%positive
              (processAllSubjects ERP sampleRaw 75)
              (fun s => calculateSubjectPercentage ERP (ps_components s)))
    as (sorted & h' & out & Hcall & Hout & Hsorted & _).
  - reflexivity.
  - intros s Hs. simpl in Hs.
    destruct Hs as [<- | [<- | [<- | []]]]; reflexivity.
  - exists sorted, h', out. split; [exact Hcall |]. split; [exact Hout | exact Hsorted].
Defined.

Lemma StronglySorted_neg_key {A : Type} (score : A -> Q) (l : list A) :
  StronglySorted (fun a b => - score a <= - score b) l ->
  StronglySorted (fun a b => score b <= score a) l.
Proof.
  induction 1 as [| x l Hs IH Hall]; constructor; [exact IH |].
  eapply List.Forall_impl; [| exact Hall]. intros y Hy. simpl in Hy. lra.
Qed.

Lemma filter_neg_key {A : Type} (score : A -> Q) (k : Q) (l : list A) :
  List.filter (fun s => Qeq_bool (- score s) (- k)) l =
  List.filter (fun s => Qeq_bool (score s) k) l.
Proof.
  apply filter_ext. intros s.
  destruct (Qeq_bool (score s) k) eqn:E.
  - apply Qeq_bool_iff in E. apply Qeq_bool_iff. lra.
  - apply Qeq_bool_neq in E.
    destruct (Qeq_bool (- score s) (- k)) eqn:E'; [| reflexivity].
    apply Qeq_bool_iff in E'. exfalso. apply E. lra.
Qed.

(** X13: for every sort key other than ['name'] and ['percentage'] (so
    for ['danger'], for an unknown key and for an omitted one), sorting an
    array of subjects that all carry a danger score gives an array in
    descending order of danger score, and the sort is stable. *)
Theorem sortSubjects_by_danger (localeCompare : string -> string -> Z)
    (h : Heap) (subjects : loc) (sortBy : option string)
    (elems : list ProcessedSubject) (score : ProcessedSubject -> Q) :
  h !! subjects = Some elems ->
  sortBy <> Some "name"%string -> sortBy <> Some "percentage"%string ->
  (forall s, In s elems -> ps_dangerScore s = Some (score s)) ->
  exists (sorted : loc) (h' : Heap) (out : list ProcessedSubject),
    sortSubjects localeCompare h subjects sortBy = Some (sorted, h') /\
    h' !! sorted = Some out /\
    StronglySorted (fun a b => score b <= score a) out /\
    forall k,
      List.filter (fun s => Qeq_bool (score s) k) out =
      List.filter (fun s => Qeq_bool (score s) k) elems.
Proof.
  intros Hs Hn Hp Hsc.
  destruct (sortSubjects_result localeCompare h subjects sortBy elems Hs)
    as (sorted & h' & Hcall & Hout).
  exists sorted, h'. eexists. split; [exact Hcall |]. split; [exact Hout |].
  assert (Hcmp : comparatorFor localeCompare
                   (match sortBy with Some key => key | None => "danger"%string end) =
                 byDanger).
  { destruct sortBy as [key |]; [| reflexivity].
    apply comparatorFor_fallback; congruence. }
  rewrite Hcmp.
  pose proof (byDanger_orders elems score Hsc) as Hord. split.
  - apply StronglySorted_neg_key. now apply array_sort_sorted.
  - intros k. rewrite <- !(filter_neg_key score k). now apply array_sort_stable.
Qed.

Lemma sortSubjects_by_danger_witness :
  exists (sorted : loc) (h' : Heap) (out : list ProcessedSubject),
    sortSubjects (fun _ _ => 0%Z)
      {[ 1%positive := processAllSubjects ERP sampleRaw 75 ]} 1%positive
      (Some "newest"%string) = Some (sorted, h') /\
    h' !! sorted = Some out /\
    StronglySorted
      (fun a b =>
         calculateDangerScore (calculateSubjectPercentage ERP (ps_components b)) 75 <=
         calculateDangerScore (calculateSubjectPercentage ERP (ps_components a)) 75) out.
Proof.
  destruct (sortSubjects_by_danger (fun _ _ => 0%Z)
              {[ 1%positive := processAllSubjects ERP sampleRaw 75 ]} 1%positive
              (Some "newest"%string)
              (processAllSubjects ERP sampleRaw 75)
              (fun s =>
                 calculateDangerScore
                   (calculateSubjectPercentage ERP (ps_components s)) 75))
    as (sorted & h' & out & Hcall & Hout & Hsorted & _).
  - reflexivity.
  - discriminate.
  - discriminate.
  - intros s Hs. simpl in Hs.
    destruct Hs as [<- | [<- | [<- | []]]]; reflexivity.
  - exists sorted, h', out. split; [exact Hcall |]. split; [exact Hout | exact Hsorted].
Defined.

(** ** Aggregate statistics: counts and mean *)

Lemma statsLoop_counts (l : list ProcessedSubject) (st : StatsLoop) :
  let st' := fold_left statsLoop_step l st in
  sl_safeCount st' = (sl_safeCount st + length (List.filter (statusIs safe) l))%nat /\
  sl_borderlineCount st' =
    (sl_borderlineCount st + length (List.filter (statusIs borderline) l))%nat /\
  sl_criticalCount st' =
    (sl_criticalCount st + length (List.filter (statusIs critical) l))%nat.
Proof.
  revert st. induction l as [| s l IH]; intros st; cbv zeta.
  - simpl. repeat split; lia.
  - simpl fold_left. destruct (IH (statsLoop_step st s)) as (H1 & H2 & H3).
    rewrite H1, H2, H3. unfold statsLoop_step.
    cbn [sl_safeCount sl_borderlineCount sl_criticalCount].
    simpl List.filter.
    destruct (statusIs safe s) eqn:Es, (statusIs borderline s) eqn:Eb,
      (statusIs critical s) eqn:Ec;
      unfold statusIs in Es, Eb, Ec;
      destruct (ps_status s); try discriminate; simpl; repeat split; lia.
Qed.

Lemma status_partition (l : list ProcessedSubject) :
  (length (List.filter (statusIs safe) l) +
   length (List.filter (statusIs borderline) l) +
   length (List.filter (statusIs critical) l))%nat = length l.
Proof.
  induction l as [| s l IH]; [reflexivity |].
  simpl List.filter. simpl length at 4.
  destruct (statusIs safe s) eqn:Es, (statusIs borderline s) eqn:Eb,
    (statusIs critical s) eqn:Ec;
    unfold statusIs in Es, Eb, Ec;
    destruct (ps_status s); try discriminate; simpl; lia.
Qed.

(** X14: [calculateAggregateStats] counts every subject exactly once:
    [totalSubjects] is the length of the list, each of the three counts
    is the number of subjects of that status, and the three counts add up
    to [totalSubjects]. *)
Theorem aggregate_counts_partition (subjects : list ProcessedSubject) (t : Q) :
  totalSubjects (calculateAggregateStats subjects t) = length subjects /\
  safeCount (calculateAggregateStats subjects t) =
    length (List.filter (statusIs safe) subjects) /\
  borderlineCount (calculateAggregateStats subjects t) =
    length (List.filter (statusIs borderline) subjects) /\
  criticalCount (calculateAggregateStats subjects t) =
    length (List.filter (statusIs critical) subjects) /\
  (safeCount (calculateAggregateStats subjects t) +
   borderlineCount (calculateAggregateStats subjects t) +
   criticalCount (calculateAggregateStats subjects t))%nat =
    totalSubjects (calculateAggregateStats subjects t).
Proof.
  assert (H : totalSubjects (calculateAggregateStats subjects t) = length subjects /\
              safeCount (calculateAggregateStats subjects t) =
                length (List.filter (statusIs safe) subjects) /\
              borderlineCount (calculateAggregateStats subjects t) =
                length (List.filter (statusIs borderline) subjects) /\
              criticalCount (calculateAggregateStats subjects t) =
                length (List.filter (statusIs critical) subjects)).
  { unfold calculateAggregateStats.
    destruct subjects as [| s l]; [repeat split |].
    change (length (s :: l) =? 0)%nat with false. cbv iota.
    cbn [totalSubjects safeCount borderlineCount criticalCount].
    destruct (statsLoop_counts (s :: l) statsLoop_init) as (H1 & H2 & H3).
    rewrite H1, H2, H3. repeat split. }
  destruct H as (H0 & H1 & H2 & H3).
  repeat split; try assumption.
  rewrite H0, H1, H2, H3. apply status_partition.
Qed.

Lemma totalPercentage_fold_NaN (l : list ProcessedSubject) (st : StatsLoop) :
  totalPercentage st = None \/ (exists s, In s l /\ ps_percentage s = None) ->
  totalPercentage (fold_left statsLoop_step l st) = None.
Proof.
  revert st. induction l as [| s l IH]; intros st H.
  - destruct H as [H | (s & [] & _)]. exact H.
  - simpl fold_left. apply IH.
    destruct H as [H | (u & [<- | Hu] & Hnone)].
    + left. unfold statsLoop_step. cbn [totalPercentage]. now rewrite H.
    + left. unfold statsLoop_step. cbn [totalPercentage]. rewrite Hnone.
      now destruct (totalPercentage st).
    + right. now exists u.
Qed.

Lemma totalPercentage_fold_number (l : list ProcessedSubject) (st : StatsLoop) :
  totalPercentage st <> None ->
  (forall s, In s l -> ps_percentage s <> None) ->
  totalPercentage (fold_left statsLoop_step l st) <> None.
Proof.
  revert st. induction l as [| s l IH]; intros st Hst Hl; [exact Hst |].
  simpl fold_left. apply IH.
  - unfold statsLoop_step. cbn [totalPercentage].
    destruct (totalPercentage st); [| congruence].
    specialize (Hl s (or_introl eq_refl)).
    destruct (ps_percentage s); [discriminate | congruence].
  - intros u Hu. apply Hl. now right.
Qed.

(** X15: over a non-empty list of subjects, [averageAttendance] is [NaN]
    exactly when some subject carries no percentage; when every subject
    carries one, it is a number. *)
Theorem averageAttendance_NaN_iff (subjects : list ProcessedSubject) (t : Q) :
  subjects <> [] ->
  (averageAttendance (calculateAggregateStats subjects t) = None <->
   exists s, In s subjects /\ ps_percentage s = None).
Proof.
  intros Hne. unfold calculateAggregateStats.
  rewrite (length_eqb_nonempty subjects Hne). cbn [averageAttendance]. split.
  - intros Hnone.
    destruct (existsb (fun s => match ps_percentage s with
                                | None => true | Some _ => false end)
                subjects) eqn:E.
    + apply existsb_exists in E. destruct E as (s & Hs & Hp).
      exists s. split; [exact Hs |]. now destruct (ps_percentage s).
    + exfalso.
      assert (Hall : forall s, In s subjects -> ps_percentage s <> None).
      { intros s Hs Hp.
        assert (Hex : existsb (fun s => match ps_percentage s with
                                        | None => true | Some _ => false end)
                        subjects = true).
        { apply existsb_exists. exists s. split; [exact Hs | now rewrite Hp]. }
        congruence. }
      pose proof (totalPercentage_fold_number subjects statsLoop_init
                    ltac:(discriminate) Hall) as Hnum.
      destruct (totalPercentage (fold_left statsLoop_step subjects statsLoop_init));
        [discriminate | congruence].
  - intros Hnone.
    rewrite (totalPercentage_fold_NaN subjects statsLoop_init); [reflexivity |].
    now right.
Qed.

Lemma averageAttendance_NaN_iff_witness :
  averageAttendance
    (calculateAggregateStats (processAllSubjects ERP sampleRaw 75) 75) = None <->
  exists s, In s (processAllSubjects ERP sampleRaw 75) /\ ps_percentage s = None.
Proof.
  apply (averageAttendance_NaN_iff (processAllSubjects ERP sampleRaw 75) 75).
  discriminate.
Defined.

Lemma filter_length_Permutation {A : Type} (f : A -> bool) (l l' : list A) :
  Permutation l l' -> length (List.filter f l) = length (List.filter f l').
Proof.
  induction 1 as [| x l l' _ IH | x y l | l l' l'' _ IH1 _ IH2]; simpl.
  - reflexivity.
  - destruct (f x); simpl; congruence.
  - destruct (f x), (f y); reflexivity.
  - congruence.
Qed.

(** X16: sorting does not change the counts: for every sort key, the
    statistics of the array returned by [sortSubjects] have the same
    [totalSubjects], [safeCount], [borderlineCount] and [criticalCount]
    as the statistics of its argument. *)
Theorem aggregate_counts_after_sort (localeCompare : string -> string -> Z)
    (h : Heap) (subjects : loc) (sortBy : option string)
    (elems : list ProcessedSubject) (t : Q) :
  h !! subjects = Some elems ->
  exists (sorted : loc) (h' : Heap) (out : list ProcessedSubject),
    sortSubjects localeCompare h subjects sortBy = Some (sorted, h') /\
    h' !! sorted = Some out /\
    totalSubjects (calculateAggregateStats out t) =
      totalSubjects (calculateAggregateStats elems t) /\
    safeCount (calculateAggregateStats out t) =
      safeCount (calculateAggregateStats elems t) /\
    borderlineCount (calculateAggregateStats out t) =
      borderlineCount (calculateAggregateStats elems t) /\
    criticalCount (calculateAggregateStats out t) =
      criticalCount (calculateAggregateStats elems t).
Proof.
  intros Hs.
  destruct (sortSubjects_result localeCompare h subjects sortBy elems Hs)
    as (sorted & h' & Hcall & Hout).
  exists sorted, h'. eexists. split; [exact Hcall |]. split; [exact Hout |].
  set (out := array_sort _ elems).
  assert (Hperm : Permutation elems out) by apply array_sort_Permutation.
  assert (Hcounts : forall l,
            totalSubjects (calculateAggregateStats l t) = length l /\
            safeCount (calculateAggregateStats l t) =
              length (List.filter (statusIs safe) l) /\
            borderlineCount (calculateAggregateStats l t) =
              length (List.filter (statusIs borderline) l) /\
            criticalCount (calculateAggregateStats l t) =
              length (List.filter (statusIs critical) l)).
  { intros l. unfold calculateAggregateStats.
    destruct l as [| s l]; [repeat split |].
    change (length (s :: l) =? 0)%nat with false. cbv iota.
    cbn [totalSubjects safeCount borderlineCount criticalCount].
    destruct (statsLoop_counts (s :: l) statsLoop_init) as (H1 & H2 & H3).
    rewrite H1, H2, H3. repeat split. }
  destruct (Hcounts out) as (O0 & O1 & O2 & O3).
  destruct (Hcounts elems) as (E0 & E1 & E2 & E3).
  rewrite O0, O1, O2, O3, E0, E1, E2, E3.
  repeat split; symmetry.
  - now apply Permutation_length.
  - now apply filter_length_Permutation.
  - now apply filter_length_Permutation.
  - now apply filter_length_Permutation.
Qed.

Lemma aggregate_counts_after_sort_witness :
  exists (sorted : loc) (h' : Heap) (out : list ProcessedSubject),
    sortSubjects (fun _ _ => 0%Z)
      {[ 1%positive := processAllSubjects ERP sampleRaw 75 ]} 1%positive None =
      Some (sorted, h') /\
    h' !! sorted = Some out /\
    criticalCount (calculateAggregateStats out 75) =
      criticalCount (calculateAggregateStats (processAllSubjects ERP sampleRaw 75) 75).
Proof.
  destruct (aggregate_counts_after_sort (fun _ _ => 0%Z)
              {[ 1%positive := processAllSubjects ERP sampleRaw 75 ]} 1%positive None
              (processAllSubjects ERP sampleRaw 75) 75)
    as (sorted & h' & out & Hcall & Hout & _ & _ & _ & Hc).
  - reflexivity.
  - exists sorted, h', out. split; [exact Hcall |]. split; [exact Hout | exact Hc].
Defined.

(** ** Mode selection *)

(** X17: [setMode] selects the corrected mode for the string
    ["TCBR_CORRECTED"] only; after [setMode] with any other string,
    valid or not, the effective attended count is the raw attended
    count and the display text is ["ERP Standard"]. *)
Theorem setMode_fallback (mode : string) (a tc : Z) :
  (setMode mode = TCBR_CORRECTED <-> mode = "TCBR_CORRECTED"%string) /\
  (mode <> "TCBR_CORRECTED"%string ->
   getEffectiveAttended (setMode mode) a tc = a /\
   getModeDisplayText (setMode mode) = "ERP Standard"%string).
Proof.
  unfold setMode.
  destruct (String.eqb mode "ERP") eqn:E1.
  - apply String.eqb_eq in E1. subst mode.
    split; [split; discriminate | intros _; split; reflexivity].
  - destruct (String.eqb mode "TCBR_CORRECTED") eqn:E2.
    + apply String.eqb_eq in E2. split; [split; intros _; [exact E2 | reflexivity] |].
      intros Hne. contradiction.
    + apply String.eqb_neq in E2.
      split; [split; [discriminate | intros H; contradiction] |].
      intros _. split; reflexivity.
Qed.

(** * The extraction layer *)

(** ** Objects as key-ordered lists *)

Lemma obj_get_set_eq {V : Type} (key : string) (v : V) (o : list (string * V)) :
  obj_get key (obj_set key v o) = Some v.
Proof.
  induction o as [| [k w] o IH]; simpl.
  - now rewrite String.eqb_refl.
  - destruct (String.eqb k key) eqn:E; simpl; now rewrite E.
Qed.

Lemma obj_get_set_ne {V : Type} (key key' : string) (v : V) (o : list (string * V)) :
  key <> key' -> obj_get key' (obj_set key v o) = obj_get key' o.
Proof.
  intros Hne. induction o as [| [k w] o IH]; simpl.
  - apply String.eqb_neq in Hne. now rewrite Hne.
  - destruct (String.eqb k key) eqn:E; simpl.
    + apply String.eqb_eq in E. subst k.
      apply String.eqb_neq in Hne. now rewrite Hne.
    + now rewrite IH.
Qed.

Lemma obj_set_nonempty {V : Type} (key : string) (v : V) (o : list (string * V)) :
  obj_set key v o <> [].
Proof. destruct o as [| [k w] o]; simpl; [| destruct (String.eqb k key)]; discriminate. Qed.

Lemma obj_set_In {V : Type} (key : string) (v : V) (o : list (string * V))
    (entry : string * V) :
  In entry (obj_set key v o) -> entry = (key, v) \/ In entry o.
Proof.
  induction o as [| [k w] o IH]; simpl.
  - intros [<- | []]. now left.
  - destruct (String.eqb k key) eqn:E; simpl.
    + apply String.eqb_eq in E. subst k. intros [<- | H]; [now left | right; now right].
    + intros [<- | H]; [right; now left |].
      destruct (IH H) as [-> | H']; [now left | right; now right].
Qed.

Lemma obj_set_keys {V : Type} (key : string) (v : V) (o : list (string * V)) :
  List.NoDup (map fst o) -> List.NoDup (map fst (obj_set key v o)) /\
  forall k, In k (map fst (obj_set key v o)) <-> k = key \/ In k (map fst o).
Proof.
  induction o as [| [k w] o IH]; simpl; intros Hnd.
  - split; [constructor; [intros [] | constructor] |]. intros k'. split.
    + intros [<- | []]. now left.
    + intros [-> | []]. now left.
  - inversion Hnd as [| ? ? Hk Hnd']; subst.
    destruct (String.eqb k key) eqn:E; simpl.
    + apply String.eqb_eq in E. subst k. split; [now constructor |].
      intros k'. split; [intros [<- | H]; [now left | right; now right] |].
      intros [-> | [<- | H]]; [now left | now left | now right].
    + destruct (IH Hnd') as [IHnd IHin]. apply String.eqb_neq in E. split.
      * constructor; [| exact IHnd]. intros Hin. apply IHin in Hin.
        destruct Hin as [-> | Hin]; [congruence | contradiction].
      * intros k'. rewrite IHin. tauto.
Qed.

Lemma obj_get_In {V : Type} (key : string) (v : V) (o : list (string * V)) :
  obj_get key o = Some v -> In (key, v) o.
Proof.
  induction o as [| [k w] o IH]; simpl; [discriminate |].
  destruct (String.eqb k key) eqn:E.
  - apply String.eqb_eq in E. subst k. intros H. injection H as <-. now left.
  - intros H. right. now apply IH.
Qed.

Lemma obj_get_None {V : Type} (key : string) (o : list (string * V)) :
  obj_get key o = None -> ~ In key (map fst o).
Proof.
  induction o as [| [k w] o IH]; simpl; [tauto |].
  destruct (String.eqb k key) eqn:E; [discriminate |].
  apply String.eqb_neq in E. intros H [Hk | Hin]; [congruence | now apply IH].
Qed.

(** ** Row validation *)

Lemma validateRowData_true (rowData : RowData) :
  validateRowData rowData = true <-> scrapedComponent (componentOfRow rowData).
Proof.
  unfold validateRowData, scrapedComponent, componentOfRow. simpl.
  destruct (300 <? _)%Z eqn:E1; [apply Z.ltb_lt in E1 | apply Z.ltb_ge in E1].
  { split; [discriminate | lia]. }
  destruct (_ <? rd_totalAttended rowData)%Z eqn:E2;
    [apply Z.ltb_lt in E2 | apply Z.ltb_ge in E2].
  { split; [discriminate | lia]. }
  destruct (_ <? 0)%Z eqn:E3; [apply Z.ltb_lt in E3 | apply Z.ltb_ge in E3].
  { split; [discriminate | lia]. }
  destruct (rd_totalAttended rowData <? 0)%Z eqn:E4;
    [apply Z.ltb_lt in E4 | apply Z.ltb_ge in E4].
  { split; [discriminate | lia]. }
  simpl.
  destruct (_ <? rd_tcbr rowData)%Z eqn:E5;
    [apply Z.ltb_lt in E5 | apply Z.ltb_ge in E5].
  { split; [discriminate | lia]. }
  split; [intros _; lia | reflexivity].
Qed.

(** X18: for a row that passes [validateRowData] and has classes
    conducted, the ratio [attended / conducted * 100] lies in [0, 100],
    so neither clamp of [calculateComponentPercentage] fires in the ERP
    mode; the percentage is 100 only when every class was attended and 0
    only when none was. *)
Theorem validated_row_percentage_endpoints (rowData : RowData) :
  validateRowData rowData = true ->
  (0 < rd_totalConducted rowData)%Z ->
  (0 <= inject_Z (rd_totalAttended rowData) / inject_Z (rd_totalConducted rowData) * 100
   /\ inject_Z (rd_totalAttended rowData) / inject_Z (rd_totalConducted rowData) * 100
      <= 100) /\
  (componentPercentageOf ERP (componentOfRow rowData) == 100 <->
   rd_totalAttended rowData = rd_totalConducted rowData) /\
  (componentPercentageOf ERP (componentOfRow rowData) == 0 <->
   rd_totalAttended rowData = 0%Z).
Proof.
  intros Hv Hc. apply validateRowData_true in Hv.
  destruct Hv as ([Ha Hac] & _ & _). simpl in Ha, Hac.
  unfold componentPercentageOf, componentOfRow, calculateComponentPercentage. simpl.
  destruct (_ <=? 0)%Z eqn:E; [apply Z.leb_le in E; lia |].
  set (a := rd_totalAttended rowData) in *.
  set (c := rd_totalConducted rowData) in *.
  pose proof (inject_Z_pos c Hc) as Hc'.
  assert (Hx : inject_Z a == inject_Z a / inject_Z c * inject_Z c) by (field; lra).
  assert (H0 : 0 <= inject_Z a / inject_Z c * 100).
  { apply ratio_le; [exact Hc' |]. pose proof (inject_Z_nonneg a Ha). lra. }
  assert (H100 : inject_Z a / inject_Z c * 100 <= 100).
  { rewrite Zle_Qle in Hac. set (x := inject_Z a / inject_Z c) in *. nra. }
  split; [split; assumption |].
  assert (Hval : (if Qltb (inject_Z a / inject_Z c * 100) 0 then 0
                  else if Qltb 100 (inject_Z a / inject_Z c * 100) then 100
                       else inject_Z a / inject_Z c * 100)
                 == inject_Z a / inject_Z c * 100).
  { qcases; lra. }
  rewrite Hval. split; split.
  - intros H. apply inject_Z_injective.
    set (x := inject_Z a / inject_Z c) in *. rewrite Hx. nra.
  - intros Heq. rewrite Heq. field. lra.
  - intros H. apply inject_Z_injective. change (inject_Z 0) with 0.
    set (x := inject_Z a / inject_Z c) in *. rewrite Hx. nra.
  - intros Heq. rewrite Heq. change (inject_Z 0) with 0. field. lra.
Qed.

Lemma validated_row_percentage_endpoints_witness :
  componentPercentageOf ERP
    (componentOfRow (mkRowData "CS101" "Algorithms" "L" 50 50 0)) == 100 <->
  50%Z = 50%Z.
Proof.
  apply (validated_row_percentage_endpoints
           (mkRowData "CS101" "Algorithms" "L" 50 50 0));
    reflexivity.
Defined.

(** ** Grouping rows into subjects *)

Lemma addRow_nonempty (subs : list (string * SubjectRecord)) (rowData : RowData) :
  addRow subs rowData <> [].
Proof. unfold addRow. apply obj_set_nonempty. Qed.

Lemma scrape_fold_nonempty (rows : list (option RowData))
    (subs : list (string * SubjectRecord)) :
  subs <> [] -> fold_left scrape_step rows subs <> [].
Proof.
  revert subs. induction rows as [| row rows IH]; intros subs H; simpl; [exact H |].
  apply IH. destruct row as [rd |]; simpl; [| exact H].
  destruct (validateRowData rd); [apply addRow_nonempty | exact H].
Qed.

Lemma scrape_fold_empty_iff (rows : list (option RowData)) :
  fold_left scrape_step rows [] = [] <->
  forall rd, In (Some rd) rows -> validateRowData rd = false.
Proof.
  induction rows as [| row rows IH]; simpl.
  - split; [intros _ rd [] | reflexivity].
  - destruct row as [rd |]; simpl.
    + destruct (validateRowData rd) eqn:Ev.
      * split.
        -- intros H. exfalso.
           apply (scrape_fold_nonempty rows (addRow [] rd) (addRow_nonempty [] rd) H).
        -- intros H. specialize (H rd (or_introl eq_refl)). congruence.
      * rewrite IH. split.
        -- intros H rd' [E | Hin]; [injection E as <-; exact Ev | now apply H].
        -- intros H rd' Hin. apply H. now right.
    + rewrite IH. split.
      * intros H rd' [E | Hin]; [discriminate | now apply H].
      * intros H rd' Hin. apply H. now right.
Qed.

Lemma addRow_invariant (subs : list (string * SubjectRecord)) (rowData : RowData) :
  validateRowData rowData = true ->
  List.NoDup (map fst subs) -> Forall scrapedSubject subs ->
  List.NoDup (map fst (addRow subs rowData)) /\
  Forall scrapedSubject (addRow subs rowData).
Proof.
  intros Hv Hnd Hall. apply validateRowData_true in Hv.
  unfold addRow. cbv zeta.
  set (key := rd_courseCode rowData).
  set (subject := match obj_get key subs with
                  | Some subject => subject
                  | None => {| courseCode := rd_courseCode rowData;
                               courseName := rd_courseName rowData;
                               components := [] |}
                  end).
  assert (Hsub : courseCode subject = key /\
                 List.NoDup (map fst (components subject)) /\
                 Forall (fun c => scrapedComponent (snd c)) (components subject)).
  { unfold subject. destruct (obj_get key subs) as [s |] eqn:Eg.
    - apply obj_get_In in Eg. rewrite List.Forall_forall in Hall.
      destruct (Hall _ Eg) as (Hc & _ & Hn & Hf). simpl in *. now repeat split.
    - simpl. repeat split; constructor. }
  destruct Hsub as (Hcode & Hlab & Hcomp).
  split; [apply obj_set_keys; exact Hnd |].
  apply List.Forall_forall. intros entry Hin.
  apply obj_set_In in Hin. destruct Hin as [-> | Hin].
  - unfold scrapedSubject. simpl.
    split; [exact Hcode |]. split; [apply obj_set_nonempty |].
    split; [apply obj_set_keys; exact Hlab |].
    apply List.Forall_forall. intros c Hc. apply obj_set_In in Hc.
    destruct Hc as [-> | Hc]; [exact Hv |].
    rewrite List.Forall_forall in Hcomp. now apply Hcomp.
  - rewrite List.Forall_forall in Hall. now apply Hall.
Qed.

Lemma scrape_fold_invariant (rows : list (option RowData))
    (subs : list (string * SubjectRecord)) :
  List.NoDup (map fst subs) -> Forall scrapedSubject subs ->
  List.NoDup (map fst (fold_left scrape_step rows subs)) /\
  Forall scrapedSubject (fold_left scrape_step rows subs).
Proof.
  revert subs. induction rows as [| row rows IH]; intros subs Hnd Hall; simpl.
  - now split.
  - destruct row as [rd |]; simpl; [| now apply IH].
    destruct (validateRowData rd) eqn:Ev; [| now apply IH].
    destruct (addRow_invariant subs rd Ev Hnd Hall) as [Hnd' Hall']. now apply IH.
Qed.

Lemma scrape_inr (rows : list (option RowData)) (raw : RawData) :
  scrapeAttendanceData rows = inr raw ->
  subjects raw = Some (fold_left scrape_step rows []) /\
  fold_left scrape_step rows [] <> [].
Proof.
  unfold scrapeAttendanceData. cbv zeta.
  destruct (fold_left scrape_step rows []) as [| e l]; simpl; [discriminate |].
  intros H. injection H as <-. split; [reflexivity | discriminate].
Qed.

Lemma scrape_subjects_scraped (rows : list (option RowData)) (raw : RawData) :
  scrapeAttendanceData rows = inr raw ->
  exists subs, subjects raw = Some subs /\ Forall scrapedSubject subs.
Proof.
  intros H. destruct (scrape_inr rows raw H) as [Hs _].
  exists (fold_left scrape_step rows []). split; [exact Hs |].
  apply scrape_fold_invariant; constructor.
Qed.

(** X19: a successful scrape returns at least one subject; the subject
    codes are pairwise distinct and each subject is stored under its own
    course code; every subject has at least one component, its labels
    are pairwise distinct, and every component satisfies
    [0 <= attended <= conducted <= 300] and [tcbr <= conducted]. *)
Theorem scrape_result_wellformed (rows : list (option RowData)) (raw : RawData) :
  scrapeAttendanceData rows = inr raw ->
  exists subs,
    subjects raw = Some subs /\
    subs <> [] /\
    List.NoDup (map fst subs) /\
    Forall scrapedSubject subs.
Proof.
  intros H. destruct (scrape_inr rows raw H) as [Hs Hne].
  exists (fold_left scrape_step rows []). split; [exact Hs |]. split; [exact Hne |].
  apply scrape_fold_invariant; constructor.
Qed.

(** X20: the scrape fails with its "No valid attendance data" error
    exactly when no row passes [validateRowData] (rows that
    [extractRowData] rejects do not count). *)
Theorem scrape_error_iff_no_valid_row (rows : list (option RowData)) :
  (exists message, scrapeAttendanceData rows = inl message) <->
  forall rd, In (Some rd) rows -> validateRowData rd = false.
Proof.
  rewrite <- scrape_fold_empty_iff. unfold scrapeAttendanceData. cbv zeta.
  destruct (fold_left scrape_step rows []) as [| e l]; simpl.
  - split; [reflexivity | intros _; eexists; reflexivity].
  - split; [intros [msg H]; discriminate | discriminate].
Qed.

(** X21: the statistics of scraped data are numbers: for the result of a
    successful scrape, in either mode and for every threshold, every
    processed subject carries a percentage in [[0, 100]] and
    [averageAttendance] is a number in [[0, 100]], never [NaN]. *)
Theorem scrape_then_process_has_mean (rows : list (option RowData)) (raw : RawData)
    (m : AttendanceMode) (t : Q) :
  scrapeAttendanceData rows = inr raw ->
  Forall (fun p => exists q, ps_percentage p = Some q /\ inRange q)
    (processAllSubjects m (Some raw) t) /\
  exists avg,
    averageAttendance
      (calculateAggregateStats (processAllSubjects m (Some raw) t) t) = Some avg /\
    inRange avg.
Proof.
  intros H. destruct (scrape_subjects_scraped rows raw H) as (subs & Hs & Hall).
  assert (Hp : Forall (fun p => exists q, ps_percentage p = Some q /\ inRange q)
                 (processAllSubjects m (Some raw) t)).
  { unfold processAllSubjects. rewrite Hs. clear Hs H.
    induction Hall as [| entry subs (_ & Hne & _) _ IH]; simpl; constructor.
    - now apply processSubject_percentage.
    - exact IH. }
  split; [exact Hp | now apply averageAttendance_inRange].
Qed.

Lemma scrape_result_wellformed_witness :
  exists raw,
    scrapeAttendanceData sampleRows = inr raw /\
    exists subs,
      subjects raw = Some subs /\
      subs <> [] /\
      List.NoDup (map fst subs) /\
      Forall scrapedSubject subs.
Proof.
  eexists. split; [reflexivity |].
  apply (scrape_result_wellformed sampleRows). reflexivity.
Defined.

Lemma scrape_then_process_has_mean_witness :
  exists raw,
    scrapeAttendanceData sampleRows = inr raw /\
    exists avg,
      averageAttendance
        (calculateAggregateStats (processAllSubjects TCBR_CORRECTED (Some raw) 75) 75) =
        Some avg /\
      inRange avg.
Proof.
  eexists. split; [reflexivity |].
  apply (scrape_then_process_has_mean sampleRows _ TCBR_CORRECTED 75). reflexivity.
Defined.

(** ** Later rows overwrite, longer names win *)

Lemma addRow_get_same (subs : list (string * SubjectRecord)) (rowData : RowData) :
  exists subject,
    obj_get (rd_courseCode rowData) (addRow subs rowData) = Some subject /\
    obj_get (rd_ltpsType rowData) (components subject) = Some (componentOfRow rowData) /\
    (forall label, label <> rd_ltpsType rowData ->
       obj_get label (components subject) =
       lookupComponent subs (rd_courseCode rowData) label) /\
    (String.length (rd_courseName rowData) <= String.length (courseName subject))%nat /\
    (forall old, obj_get (rd_courseCode rowData) subs = Some old ->
       (String.length (courseName old) <= String.length (courseName subject))%nat).
Proof.
  unfold addRow. cbv zeta. rewrite obj_get_set_eq. eexists. split; [reflexivity |].
  cbn [components courseName]. split; [apply obj_get_set_eq |]. split; [| split].
  - intros label Hne. rewrite obj_get_set_ne by congruence.
    unfold lookupComponent. now destruct (obj_get (rd_courseCode rowData) subs).
  - destruct (obj_get (rd_courseCode rowData) subs) as [old |]; cbn [courseName].
    + destruct (_ <? _)%nat eqn:E; [lia | apply Nat.ltb_ge in E; lia].
    + destruct (_ <? _)%nat; lia.
  - intros old Hold. rewrite Hold.
    destruct (_ <? _)%nat eqn:E; [apply Nat.ltb_lt in E; lia | lia].
Qed.

Lemma addRow_get_other (subs : list (string * SubjectRecord)) (rowData : RowData)
    (code : string) :
  code <> rd_courseCode rowData ->
  obj_get code (addRow subs rowData) = obj_get code subs.
Proof.
  intros Hne. unfold addRow. cbv zeta. apply obj_get_set_ne. congruence.
Qed.

Lemma scrape_step_lookup_kept (subs : list (string * SubjectRecord))
    (row : option RowData) (code label : string) :
  (forall rd, row = Some rd -> validateRowData rd = true ->
     rd_courseCode rd = code -> rd_ltpsType rd <> label) ->
  lookupComponent (scrape_step subs row) code label = lookupComponent subs code label.
Proof.
  intros H. destruct row as [rd |]; simpl; [| reflexivity].
  destruct (validateRowData rd) eqn:Ev; [| reflexivity].
  destruct (string_dec code (rd_courseCode rd)) as [-> | Hne].
  - destruct (addRow_get_same subs rd) as (subject & Hg & _ & Hother & _).
    unfold lookupComponent at 1. rewrite Hg. apply Hother.
    intros ->. now apply (H rd eq_refl Ev eq_refl).
  - unfold lookupComponent. now rewrite addRow_get_other.
Qed.

Lemma scrape_fold_lookup_kept (rows : list (option RowData))
    (subs : list (string * SubjectRecord)) (code label : string) :
  (forall rd, In (Some rd) rows -> validateRowData rd = true ->
     rd_courseCode rd = code -> rd_ltpsType rd <> label) ->
  lookupComponent (fold_left scrape_step rows subs) code label =
  lookupComponent subs code label.
Proof.
  revert subs. induction rows as [| row rows IH]; intros subs H; simpl; [reflexivity |].
  rewrite IH.
  - apply scrape_step_lookup_kept. intros rd -> Hv Hc. apply (H rd); [now left | | ]; assumption.
  - intros rd Hin. apply H. now right.
Qed.

(** X22: the component stored for a subject and a label is the one of
    the last valid row for them: when no valid row has a course code
    that names a property of [Object.prototype], and a valid row is
    followed by no valid row with the same course code and LTPS label,
    the scrape succeeds and [subjects[code].components[label]] holds
    that row's counts. *)
Theorem scrape_last_row_wins (rows1 rows2 : list (option RowData)) (rd : RowData) :
  ownCourseCodes (rows1 ++ Some rd :: rows2) ->
  validateRowData rd = true ->
  (forall rd', In (Some rd') rows2 -> validateRowData rd' = true ->
     rd_courseCode rd' = rd_courseCode rd -> rd_ltpsType rd' <> rd_ltpsType rd) ->
  exists raw subs,
    scrapeAttendanceData (rows1 ++ Some rd :: rows2) = inr raw /\
    subjects raw = Some subs /\
    lookupComponent subs (rd_courseCode rd) (rd_ltpsType rd) = Some (componentOfRow rd).
Proof.
  intros _ Hv Hlast. unfold scrapeAttendanceData. cbv zeta.
  rewrite fold_left_app.
  set (before := fold_left scrape_step rows1 []).
  change (fold_left scrape_step (Some rd :: rows2) before) with
    (fold_left scrape_step rows2
       (if validateRowData rd then addRow before rd else before)).
  rewrite Hv.
  pose proof (scrape_fold_nonempty rows2 (addRow before rd) (addRow_nonempty before rd))
    as Hne.
  rewrite (length_eqb_nonempty _ Hne).
  eexists _, _. split; [reflexivity |]. split; [reflexivity |].
  rewrite (scrape_fold_lookup_kept rows2 _ _ _ Hlast).
  destruct (addRow_get_same before rd) as (subject & Hg & Hc & _).
  unfold lookupComponent. now rewrite Hg.
Qed.

Lemma scrape_last_row_wins_witness :
  exists raw subs,
    scrapeAttendanceData sampleRows = inr raw /\
    subjects raw = Some subs /\
    lookupComponent subs "CS101" "L" = Some (mkComponent 52 41 0).
Proof.
  apply (scrape_last_row_wins
           [Some (mkRowData "CS101" "Algorithms" "L" 50 40 0);
            None;
            Some (mkRowData "CS101" "Algorithms" "T" 10 12 0);
            Some (mkRowData "CS101" "Algorithms and Data Structures" "P" 10 5 0);
            Some (mkRowData "MA101" "Mathematics" "L" 20 18 2)]
           []
           (mkRowData "CS101" "Algorithms" "L" 52 41 0)).
  - intros rd' Hin _ Hp. simpl in Hin.
    repeat (destruct Hin as [Heq | Hin];
            [try discriminate Heq; injection Heq as <-; simpl in Hp;
             repeat (destruct Hp as [Hp | Hp]; [discriminate Hp |]); exact Hp |]).
    exact Hin.
  - reflexivity.
  - intros rd' [].
Defined.

Lemma scrape_step_name_kept (subs : list (string * SubjectRecord))
    (row : option RowData) (code : string) (old : SubjectRecord) :
  obj_get code subs = Some old ->
  exists subject,
    obj_get code (scrape_step subs row) = Some subject /\
    (String.length (courseName old) <= String.length (courseName subject))%nat.
Proof.
  intros Hold. destruct row as [rd |]; simpl; [| exists old; split; [exact Hold | lia]].
  destruct (validateRowData rd); [| exists old; split; [exact Hold | lia]].
  destruct (string_dec code (rd_courseCode rd)) as [-> | Hne].
  - destruct (addRow_get_same subs rd) as (subject & Hg & _ & _ & _ & Hlen).
    exists subject. split; [exact Hg | now apply Hlen].
  - exists old. split; [now rewrite addRow_get_other | lia].
Qed.

Lemma scrape_fold_name_kept (rows : list (option RowData))
    (subs : list (string * SubjectRecord)) (code : string) (old : SubjectRecord) :
  obj_get code subs = Some old ->
  exists subject,
    obj_get code (fold_left scrape_step rows subs) = Some subject /\
    (String.length (courseName old) <= String.length (courseName subject))%nat.
Proof.
  revert subs old. induction rows as [| row rows IH]; intros subs old Hold; simpl.
  - exists old. split; [exact Hold | lia].
  - destruct (scrape_step_name_kept subs row code old Hold) as (mid & Hmid & Hlen).
    destruct (IH _ mid Hmid) as (subject & Hs & Hlen').
    exists subject. split; [exact Hs | lia].
Qed.

Lemma scrape_fold_name_longest (rows : list (option RowData))
    (subs : list (string * SubjectRecord)) (rd : RowData) :
  In (Some rd) rows -> validateRowData rd = true ->
  exists subject,
    obj_get (rd_courseCode rd) (fold_left scrape_step rows subs) = Some subject /\
    (String.length (rd_courseName rd) <= String.length (courseName subject))%nat.
Proof.
  revert subs. induction rows as [| row rows IH]; intros subs Hin Hv; [destruct Hin |].
  simpl fold_left. destruct Hin as [-> | Hin]; [| now apply IH].
  simpl scrape_step. rewrite Hv.
  destruct (addRow_get_same subs rd) as (mid & Hg & _ & _ & Hlen & _).
  destruct (scrape_fold_name_kept rows _ _ mid Hg) as (subject & Hs & Hlen').
  exists subject. split; [exact Hs | lia].
Qed.

(** X23: after a successful scrape the stored course name of a subject
    is at least as long as the course name of every valid row of that
    subject. *)
Theorem scrape_courseName_longest (rows : list (option RowData)) (raw : RawData)
    (rd : RowData) :
  scrapeAttendanceData rows = inr raw ->
  In (Some rd) rows -> validateRowData rd = true ->
  exists subs subject,
    subjects raw = Some subs /\
    obj_get (rd_courseCode rd) subs = Some subject /\
    (String.length (rd_courseName rd) <= String.length (courseName subject))%nat.
Proof.
  intros H Hin Hv. destruct (scrape_inr rows raw H) as [Hs _].
  destruct (scrape_fold_name_longest rows [] rd Hin Hv) as (subject & Hg & Hlen).
  exists (fold_left scrape_step rows []), subject. now repeat split.
Qed.

Lemma scrape_courseName_longest_witness :
  exists raw subs subject,
    scrapeAttendanceData sampleRows = inr raw /\
    subjects raw = Some subs /\
    obj_get "CS101" subs = Some subject /\
    (String.length "Algorithms and Data Structures" <=
     String.length (courseName subject))%nat.
Proof.
  eexists.
  destruct (scrape_courseName_longest sampleRows _
              (mkRowData "CS101" "Algorithms and Data Structures" "P" 10 5 0)
              eq_refl)
    as (subs & subject & Hs & Hg & Hlen).
  - simpl. tauto.
  - reflexivity.
  - exists subs, subject. split; [reflexivity |]. now repeat split.
Defined.

(** ** Reading numbers from cells *)

Lemma keepNumeric_app (a b : string) :
  keepNumeric (a ++ b) = (keepNumeric a ++ keepNumeric b)%string.
Proof.
  induction a as [| c a IH]; simpl; [reflexivity |].
  destruct (isDigit c || Ascii.eqb c "-"); simpl; now rewrite IH.
Qed.

Lemma keepNumeric_uint (d : uint) :
  keepNumeric (NilEmpty.string_of_uint d) = NilEmpty.string_of_uint d.
Proof.
  induction d as [| d IH | d IH | d IH | d IH | d IH | d IH | d IH | d IH | d IH | d IH];
    [reflexivity | ..];
    cbn [NilEmpty.string_of_uint keepNumeric];
    match goal with
    | |- (if ?b then _ else _) = _ => change b with true
    end; cbv iota; now rewrite IH.
Qed.

Lemma parseDigits_uint (d : uint) (a : nat) :
  parseDigits (NilEmpty.string_of_uint d) (Some (Z.of_nat a)) =
  Some (Z.of_nat (Nat.of_uint_acc d a)).
Proof.
  revert a.
  induction d as [| d IH | d IH | d IH | d IH | d IH | d IH | d IH | d IH | d IH | d IH];
    intros a; [reflexivity | ..];
    cbn [NilEmpty.string_of_uint parseDigits Nat.of_uint_acc];
    match goal with
    | |- (if ?b then _ else _) = _ => change b with true
    end; cbv iota; rewrite <- IH; do 2 f_equal;
    rewrite Nat.tail_mul_spec; unfold digitValue;
    match goal with
    | |- context [nat_of_ascii ?c] =>
        let v := eval vm_compute in (nat_of_ascii c) in
        change (nat_of_ascii c) with v
    end; lia.
Qed.

Lemma parseInt10_uint (d : uint) :
  d <> Nil ->
  parseInt10 (NilEmpty.string_of_uint d) = Some (Z.of_nat (Nat.of_uint d)).
Proof.
  intros Hne. unfold Nat.of_uint.
  rewrite <- (parseDigits_uint d 0).
  destruct d; [congruence | ..]; reflexivity.
Qed.

Lemma parseInt10_numeral (n : nat) :
  parseInt10 (numeral n) = Some (Z.of_nat n) /\
  parseDigits (numeral n) None = Some (Z.of_nat n) /\
  keepNumeric (numeral n) = numeral n.
Proof.
  unfold numeral. pose proof (DecimalNat.Unsigned.of_to n) as Hn.
  destruct (Nat.to_uint n) as [| d | d | d | d | d | d | d | d | d | d] eqn:E;
    [simpl in Hn; subst n; repeat split | ..];
    rewrite <- Hn at 1 2; unfold NilZero.string_of_uint;
    (split; [apply parseInt10_uint; discriminate |]);
    (split; [| apply keepNumeric_uint]);
    match goal with
    | |- parseDigits (NilEmpty.string_of_uint ?u) None = _ =>
        rewrite <- (parseInt10_uint u) by discriminate
    end; reflexivity.
Qed.

Lemma append_empty_r (s : string) : (s ++ "")%string = s.
Proof.
  induction s as [| c s IH]; [reflexivity |].
  change (String c s ++ "")%string with (String c (s ++ "")%string).
  now rewrite IH.
Qed.

(** X24: a cell that shows the decimal numeral of a number of at most
    2^53 is read back as that number, whatever text without digits and
    minus signs stands before and after it (spaces, a percent sign,
    letters); with a minus sign in front of the numeral it is read as the
    negated number. *)
Theorem getCellNumber_numeral (pre post : string) (n : nat) :
  (Z.of_nat n <= 2 ^ 53)%Z ->
  noNumeric pre -> noNumeric post ->
  getCellNumber (pre ++ numeral n ++ post) = Z.of_nat n /\
  getCellNumber (pre ++ "-" ++ numeral n ++ post) = (- Z.of_nat n)%Z.
Proof.
  unfold noNumeric. intros _ Hpre Hpost.
  destruct (parseInt10_numeral n) as (Hp & Hd & Hk).
  pose proof (append_empty_r (numeral n)) as Hnil.
  unfold getCellNumber. split.
  - rewrite !keepNumeric_app, Hpre, Hpost, Hk, Hnil.
    change ("" ++ numeral n)%string with (numeral n). now rewrite Hp.
  - rewrite !keepNumeric_app, Hpre, Hpost, Hk, Hnil.
    change ("" ++ (keepNumeric "-" ++ numeral n))%string
      with (String "-" (numeral n)).
    unfold parseInt10. change (Ascii.eqb "-" "-") with true. cbv iota.
    now rewrite Hd.
Qed.

Lemma getCellNumber_numeral_witness :
  getCellNumber (" " ++ numeral 85 ++ " %") = 85%Z /\
  getCellNumber (" " ++ "-" ++ numeral 85 ++ " %") = (-85)%Z.
Proof.
  apply (getCellNumber_numeral " " " %" 85); [lia | reflexivity | reflexivity].
Defined.

Lemma parseDigits_noDigit (s : string) (acc : option Z) :
  noDigit s -> parseDigits (keepNumeric s) acc = acc.
Proof.
  induction s as [| c s IH]; simpl; [reflexivity |].
  intros [Hc Hs]. rewrite Hc. simpl.
  destruct (Ascii.eqb c "-"); [| now apply IH].
  simpl. now rewrite Hc.
Qed.

(** X25: a cell without any digit (empty, a dash, letters) is read as
    0. *)
Theorem getCellNumber_no_digit (val : string) :
  noDigit val -> getCellNumber val = 0%Z.
Proof.
  intros H. unfold getCellNumber.
  assert (Hp : parseInt10 (keepNumeric val) = None).
  { induction val as [| c s IH]; [reflexivity |].
    destruct H as [Hc Hs]. simpl. rewrite Hc. simpl.
    destruct (Ascii.eqb c "-") eqn:E; [| now apply IH].
    simpl. rewrite E. now rewrite parseDigits_noDigit. }
  now rewrite Hp.
Qed.

Lemma getCellNumber_no_digit_witness : getCellNumber "N/A -" = 0%Z.
Proof.
  apply (getCellNumber_no_digit "N/A -"). simpl. tauto.
Defined.

(** * The popup script *)

(** X26: [formatRelativeTime] reads off whole units of the difference
    itself: below one minute (negative differences included) it says
    "Just now"; from one minute to below one hour it shows the whole
    minutes; from one hour to below one day the whole hours,
    [diffMs / 3600000]; and from one day on the whole days,
    [diffMs / 86400000]. *)
Theorem formatRelativeTime_units (diffMs : Z) :
  ((diffMs < 60000)%Z -> formatRelativeTime diffMs = "Just now"%string) /\
  ((60000 <= diffMs < 3600000)%Z ->
   formatRelativeTime diffMs =
     (numeral (Z.to_nat (diffMs / 60000)) ++ "m ago")%string) /\
  ((3600000 <= diffMs < 86400000)%Z ->
   formatRelativeTime diffMs =
     (numeral (Z.to_nat (diffMs / 3600000)) ++ "h ago")%string) /\
  ((86400000 <= diffMs)%Z ->
   formatRelativeTime diffMs =
     (numeral (Z.to_nat (diffMs / 86400000)) ++ "d ago")%string).
Proof.
  unfold formatRelativeTime. cbv zeta.
  assert (Hh : (diffMs / 60000 / 60 = diffMs / 3600000)%Z)
    by (rewrite Z.div_div by lia; reflexivity).
  assert (Hd : (diffMs / 60000 / 60 / 24 = diffMs / 86400000)%Z)
    by (rewrite !Z.div_div by lia; reflexivity).
  repeat split; intros H.
  - assert (Hm : (diffMs / 60000 < 1)%Z) by (apply Z.div_lt_upper_bound; lia).
    apply Z.ltb_lt in Hm. now rewrite Hm.
  - assert (Hm1 : (1 <= diffMs / 60000)%Z) by (apply Z.div_le_lower_bound; lia).
    assert (Hm2 : (diffMs / 60000 < 60)%Z) by (apply Z.div_lt_upper_bound; lia).
    apply Z.ltb_ge in Hm1. apply Z.ltb_lt in Hm2. now rewrite Hm1, Hm2.
  - assert (Hm1 : (60 <= diffMs / 60000)%Z) by (apply Z.div_le_lower_bound; lia).
    assert (Hh1 : (diffMs / 3600000 < 24)%Z) by (apply Z.div_lt_upper_bound; lia).
    assert (E1 : (diffMs / 60000 <? 1)%Z = false) by (apply Z.ltb_ge; lia).
    assert (E2 : (diffMs / 60000 <? 60)%Z = false) by (apply Z.ltb_ge; lia).
    rewrite E1, E2, Hh. apply Z.ltb_lt in Hh1. now rewrite Hh1.
  - assert (Hm1 : (60 <= diffMs / 60000)%Z) by (apply Z.div_le_lower_bound; lia).
    assert (Hh1 : (24 <= diffMs / 3600000)%Z) by (apply Z.div_le_lower_bound; lia).
    assert (E1 : (diffMs / 60000 <? 1)%Z = false) by (apply Z.ltb_ge; lia).
    assert (E2 : (diffMs / 60000 <? 60)%Z = false) by (apply Z.ltb_ge; lia).
    rewrite E1, E2, Hd, Hh. apply Z.ltb_ge in Hh1. now rewrite Hh1.
Qed.

(** * Means and monotonicity *)





Lemma componentPercentage_mono_effective (m m' : AttendanceMode)
    (a a' c tc tc' : Z) :
  (getEffectiveAttended m a tc <= getEffectiveAttended m' a' tc')%Z ->
  calculateComponentPercentage m a c tc <= calculateComponentPercentage m' a' c tc'.
Proof.
  intros He. unfold calculateComponentPercentage.
  destruct (c <=? 0)%Z eqn:Ec; [lra | apply Z.leb_gt in Ec]. cbv zeta.
  rewrite Zle_Qle in He.
  set (e := inject_Z (getEffectiveAttended m a tc)) in *.
  set (e' := inject_Z (getEffectiveAttended m' a' tc')) in *.
  pose proof (inject_Z_pos c Ec) as Hc.
  assert (Hr : e / inject_Z c * 100 <= e' / inject_Z c * 100).
  { apply ratio_le; [exact Hc |].
    assert (Hx : e == e / inject_Z c * inject_Z c) by (field; lra).
    set (x := e / inject_Z c) in *. nra. }
  qcases; lra.
Qed.

(** X28: the component percentage never decreases when more classes are
    attended, [conducted] and [tcbr] unchanged. *)
Theorem componentPercentage_monotone (m : AttendanceMode) (a a' c tc : Z) :
  (a <= a')%Z ->
  calculateComponentPercentage m a c tc <= calculateComponentPercentage m a' c tc.
Proof.
  intros H. apply componentPercentage_mono_effective. destruct m; simpl; lia.
Qed.

Lemma componentPercentage_monotone_witness :
  calculateComponentPercentage ERP 5 10 0 <= calculateComponentPercentage ERP 6 10 0.
Proof.
  apply (componentPercentage_monotone ERP 5 6 10 0). lia.
Defined.

Lemma subjectPercentage_fold_modes (cs : Components) (n : Z) (t1 t2 : Q) :
  Forall (fun entry => (0 <= tcbr (snd entry))%Z) cs ->
  t1 <= t2 ->
  snd (fold_left (subjectPercentage_step ERP) cs (t1, n)) =
    snd (fold_left (subjectPercentage_step TCBR_CORRECTED) cs (t2, n)) /\
  fst (fold_left (subjectPercentage_step ERP) cs (t1, n)) <=
    fst (fold_left (subjectPercentage_step TCBR_CORRECTED) cs (t2, n)).
Proof.
  intros Hall. revert n t1 t2.
  induction Hall as [| entry cs He _ IH]; intros n t1 t2 Ht; simpl fold_left.
  - simpl. split; [reflexivity | exact Ht].
  - assert (S1 : forall m t,
              subjectPercentage_step m (t, n) entry =
              if (0 <? conducted (snd entry))%Z
              then (t + componentPercentageOf m (snd entry), (n + 1)%Z)
              else (t, n)) by reflexivity.
    rewrite !S1.
    destruct (0 <? conducted (snd entry))%Z; [| now apply IH].
    apply IH. unfold componentPercentageOf.
    pose proof (componentPercentage_mono_effective ERP TCBR_CORRECTED
                  (attended (snd entry)) (attended (snd entry))
                  (conducted (snd entry)) (tcbr (snd entry)) (tcbr (snd entry))) as Hm.
    simpl in Hm. specialize (Hm ltac:(lia)). lra.
Qed.

(** X29: with non-negative carry-forward values the corrected mode never
    lowers a percentage: the component percentage and the subject
    percentage in the TCBR_CORRECTED mode are at least those in the ERP
    mode. *)
Theorem corrected_mode_never_lower (cs : Components) :
  Forall (fun entry => (0 <= tcbr (snd entry))%Z) cs ->
  Forall (fun entry =>
            componentPercentageOf ERP (snd entry) <=
            componentPercentageOf TCBR_CORRECTED (snd entry)) cs /\
  calculateSubjectPercentage ERP cs <= calculateSubjectPercentage TCBR_CORRECTED cs.
Proof.
  intros Hall. split.
  - eapply List.Forall_impl; [| exact Hall]. intros entry He. simpl in He.
    unfold componentPercentageOf. apply componentPercentage_mono_effective.
    simpl. lia.
  - unfold calculateSubjectPercentage.
    destruct (length cs =? 0)%nat; [lra |].
    destruct (subjectPercentage_fold_modes cs 0 0 0 Hall ltac:(lra)) as [Hn Hle].
    pose proof (subjectPercentage_fold_bounds TCBR_CORRECTED cs (0, 0%Z)) as Hb.
    cbv zeta in Hb. simpl fst in Hb at 1 2. simpl snd in Hb at 1 2.
    destruct Hb as (Hn0 & _ & _); [lia | split; [lra | discriminate] |].
    destruct (fold_left (subjectPercentage_step ERP) cs (0, 0%Z)) as [t1 n1].
    destruct (fold_left (subjectPercentage_step TCBR_CORRECTED) cs (0, 0%Z))
      as [t2 n2].
    simpl in Hn, Hle, Hn0. subst n1.
    destruct (n2 =? 0)%Z eqn:E; [lra | apply Z.eqb_neq in E].
    assert (Hq : 0 < inject_Z n2) by (apply inject_Z_pos; lia).
    apply Qle_shift_div_l; [exact Hq |].
    assert (Hdiv : t1 / inject_Z n2 * inject_Z n2 == t1) by (field; lra).
    rewrite Hdiv. exact Hle.
Qed.

Lemma corrected_mode_never_lower_witness :
  calculateSubjectPercentage ERP
    [("L"%string, mkComponent 50 30 5); ("P"%string, mkComponent 10 5 0)] <=
  calculateSubjectPercentage TCBR_CORRECTED
    [("L"%string, mkComponent 50 30 5); ("P"%string, mkComponent 10 5 0)].
Proof.
  apply (corrected_mode_never_lower
           [("L"%string, mkComponent 50 30 5); ("P"%string, mkComponent 10 5 0)]).
  repeat constructor; simpl; lia.
Defined.

(** * The code on binary64

    Where the result of the code turns on the rounding of a quotient or
    a product, the functions of [F64] are evaluated: they compute with
    the binary64 numbers of the source. *)

Section Binary64.
Import PrimFloat.
Local Open Scope float_scope.

(** The examples of the specification evaluate on binary64 as they do
    with exact quotients. *)
Lemma binary64_examples :
  F64.classesNeededToReachThreshold ERP 5 10 75 0 = 10 /\
  F64.classesNeededToReachThreshold ERP 8 10 100 0 = infinity /\
  F64.classesNeededToReachThreshold ERP 10 10 100 0 = 0 /\
  F64.classesCanSkip ERP 40 50 75 0 = 3 /\
  F64.calculateComponentPercentage ERP 40 50 0 = 80 /\
  F64.calculateDangerScore 60 75 = 65 /\
  F64.calculateDangerScore 80 75 = 5.
Proof. repeat split; vm_compute; reflexivity. Qed.

(** C6 (the code at attended 4, conducted 4, threshold 80, ERP mode):
    the quotient [(4 - 80/100 * 4) / (80/100)] is exactly 1, and one
    more class, missed, leaves 4 of 5, which the code itself computes as
    80 per cent; on binary64 the quotient comes out below 1, its floor
    is 0, and [classesCanSkip] returns 0 where the floor of the claim
    is 1.  The example of the claim (40 of 50 at threshold 75) returns 3,
    and so does 35 of 50 with a carry-forward of 5 in the corrected
    mode, which returns 0 in the ERP mode. *)
Theorem classesCanSkip_binary64_below_floor :
  F64.classesCanSkip ERP 4 4 80 0 = 0 /\
  ((4 - 80 / 100 * 4) / (80 / 100) <? 1) = true /\
  F64.Math_floor ((4 - 80 / 100 * 4) / (80 / 100)) = 0 /\
  Qfloor ((inject_Z 4 - 80 / 100 * inject_Z 4) / (80 / 100))%Q = 1%Z /\
  (80 <=? F64.calculateComponentPercentage ERP 4 (4 + 1) 0) = true /\
  F64.classesCanSkip ERP 40 50 75 0 = 3 /\
  F64.classesCanSkip TCBR_CORRECTED 35 50 75 5 = 3 /\
  F64.classesCanSkip ERP 35 50 75 5 = 0.
Proof. repeat split; vm_compute; reflexivity. Qed.

(** At attended 57, conducted 100 the computed percentage is below 57:
    at threshold 57 the status is critical, while
    [classesNeededToReachThreshold] returns 0, its numerator
    [57/100 * 100 - 57] being below 0 for the same reason. *)
Lemma binary64_percentage_below_ratio :
  (F64.calculateComponentPercentage ERP 57 100 0 <? 57) = true /\
  F64.getStatus (F64.calculateComponentPercentage ERP 57 100 0) 57 = critical /\
  F64.classesNeededToReachThreshold ERP 57 100 57 0 = 0 /\
  F64.classesCanSkip ERP 57 100 57 0 = 0.
Proof. repeat split; vm_compute; reflexivity. Qed.

(** At attended 14, conducted 20, threshold 80 ten more classes reach
    the threshold (24 of 30); the quotient comes out above 10 and
    [classesNeededToReachThreshold] returns 11. *)
Lemma binary64_classesNeeded_one_over :
  F64.classesNeededToReachThreshold ERP 14 20 80 0 = 11 /\
  (80 * (20 + 10) <= 100 * (14 + 10))%Z /\
  (80 <=? F64.calculateComponentPercentage ERP (14 + 10) (20 + 10) 0) = true.
Proof. repeat split; vm_compute; first [reflexivity | discriminate]. Qed.

(** A percentage just below the threshold has the score 50 of the
    threshold's neighbour: 29 of 100 is computed below 29 and scores
    exactly 50 at threshold 29; and 50 and the number next below 50 both
    score 75 at threshold 75. *)
Lemma binary64_dangerScore_ties :
  (F64.calculateComponentPercentage ERP 29 100 0 <? 29) = true /\
  F64.calculateDangerScore (F64.calculateComponentPercentage ERP 29 100 0) 29 = 50 /\
  F64.calculateDangerScore 50 75 = 75 /\
  F64.calculateDangerScore (next_down 50) 75 = 75.
Proof. repeat split; vm_compute; reflexivity. Qed.

(** Outside integer thresholds and the counts of the extraction layer
    the result 0 no longer follows the attendance ratio: the number
    nearest to 100/3 is above 100/3 (three times its exact value exceeds
    100), and at that threshold one class of three returns 0; and so do
    counts near 10^15 whose ratio is below 70 per cent. *)
Lemma binary64_beyond_the_extraction_layer :
  F64.classesNeededToReachThreshold ERP 1 3 (100 / 3) 0 = 0 /\
  option_map (fun t => Qle_bool (t * 3) (100 * 1)) (F64.toQ (100 / 3)) = Some false /\
  F64.classesNeededToReachThreshold ERP 598526811020840 855038301458343 70 0 = 0 /\
  (100 * 598526811020840 < 70 * 855038301458343)%Z.
Proof. repeat split; vm_compute; reflexivity. Qed.

End Binary64.
